(** * dingospeed: the metadata cache-and-proxy service

    A shallow embedding of [internal/service/meta_service.go]:
    the metadata proxy ([MetaProxyCommon], [requestAndSaveMeta]), the refs
    proxy ([RepoRefs]) and the directory listing assembler
    ([RepositoryFiles], [analysisFile], [sortNodes]).

    The Go code threads three kinds of effects through its calls: the cache
    store on disk, calls to remote collaborators (commit resolver, origin
    client) and what is written to the HTTP response.  Here they are explicit:
    a state made of the disk and of the history of remote calls and
    emissions, threaded by a small state monad. *)

From Stdlib Require Import ZArith String Ascii List Permutation Sorted.
From stdpp Require Import base option list strings gmap sorting.

Local Open Scope Z_scope.
Local Open Scope string_scope.
Local Open Scope list_scope.

(** ** Data model *)

Module common.

(** [common.CacheContent]: a cached response. *)
Record CacheContent : Type := mkCacheContent {
  StatusCode : Z;
  Headers : gmap string string;
  OriginContent : string
}.

(** [common.PathsInfo]: one element of a paths-info file. *)
Record PathsInfo : Type := mkPathsInfo {
  Path : string;
  Size : Z
}.

(** The response of an origin call, as the service uses it. *)
Record Response : Type := mkResponse {
  RespStatusCode : Z;
  RespHeaders : gmap string string;
  Body : string
}.

End common.

(** [FileDescribe], the element of a directory listing. *)
Record FileDescribe : Type := mkFileDescribe {
  Name : string;
  Size : Z;
  IsDir : bool;
  Link : string
}.

(** [net/http] status constants used by the service. *)
Definition StatusOK : Z := 200.
Definition StatusTemporaryRedirect : Z := 307.

(** Modelled from the spec: the error helpers of [pkg/util]
    ([ErrorEntryUnknown], [ErrorProxyError], [ErrorEntryNotFound],
    [ErrorPageNotFound], [ErrorRepoNotFound]) are not part of the service
    file.  Following the error taxonomy of the spec, each one sends the
    error response of its class to the client and hands that class back as
    the Go [error].  The remaining constructors are the errors of the
    listing assembler ("file not exists", a failing [ReadDir], cache read or
    JSON decoding) and of the response emitter. *)
Inductive error : Type :=
  | EntryUnknown (code : Z) (msg : string)
  | ProxyError
  | EntryNotFound
  | PageNotFound
  | RepoNotFound
  | FileNotExists
  | ReadDirError
  | ReadError
  | UnmarshalError
  | EmitError.

(** What [GetFileCommitSha] can fail with: a structured [myerr.Error]
    carrying a status code, or any other Go error. *)
Inductive ResolveError : Type :=
  | MyErr (code : Z) (msg : string)
  | PlainErr.

(** Everything the service does to the outside world apart from the disk, in
    the order it happens. *)
Inductive Event : Type :=
  | EvResolve (repoType orgRepo commit : string)
  | EvRemoteRequestMeta (method repoType orgRepo commit authorization : string)
  | EvRepoRefs (repoType orgRepo authorization : string)
  | EvErrorResponse (e : error)
  | EvResponseHeaders (code : Z) (hs : gmap string string)
  | EvWriteHeader (code : Z) (hs : gmap string string)
  | EvCopy (body : string)
  | EvResponseStream (orgRepo : string) (hs : gmap string string)
                     (chunks : list string).

(** The origin client was contacted. *)
Definition is_origin_call (e : Event) : bool :=
  match e with
  | EvRemoteRequestMeta _ _ _ _ _ | EvRepoRefs _ _ _ => true
  | _ => false
  end.

(** Body bytes were handed to the client. *)
Definition is_body_emission (e : Event) : bool :=
  match e with
  | EvCopy _ | EvResponseStream _ _ _ => true
  | _ => false
  end.

(** [config.SysConfig], read-only process configuration. *)
Record Config : Type := mkConfig {
  Repos : string;
  Online : bool;
  PublicDomain : string
}.

(** The echo context of a request, as far as the service reads it. *)
Record Context : Type := mkContext {
  authorization : string
}.

(** ** External collaborators

    The packages [dao], [util], [consts] and the JSON decoder are outside the
    service file.  They are parameters of the development.  A remote
    collaborator may answer differently each time it is asked: its answer is
    a function of the history so far. *)
Record Env : Type := mkEnv {
  SysConfig : Config;
  RequestTypeHead : string;
  RepoTypesMapping : list string;
  GetOrgRepo : string -> string -> string;
  ExtractHeaders : gmap string string -> gmap string string;
  Unmarshal : string -> option (list common.PathsInfo);
  resolver : list Event -> string -> string -> string -> ResolveError + string;
  origin_meta : list Event -> string -> string -> string -> string -> string ->
                option common.Response;
  origin_refs : list Event -> string -> string -> string ->
                option common.Response;
  emit_headers : list Event -> Z -> gmap string string -> option error;
  emit_copy : list Event -> string -> bool;
  emit_stream : list Event -> string -> gmap string string -> list string ->
                option error
}.

(** The cache store: [util.FileExists], [util.MakeDirs], [util.ReadDir] and
    the [FileDao] read and write of a cached response.  A read gives the
    content or fails ([None]); a write or a directory creation says whether
    it went through ([true]), and a failing one still hands back the disk it
    leaves behind. *)
Class CacheStore (Disk : Type) : Type := {
  disk_exists : Disk -> string -> bool;
  disk_read : Disk -> string -> option common.CacheContent;
  disk_write : Disk -> string -> Z -> gmap string string -> string ->
               bool * Disk;
  disk_mkdirs : Disk -> string -> bool * Disk;
  disk_readdir : Disk -> string -> option (list string)
}.

(** What the spec's cache store interface promises. *)
Class CacheStoreLaws (Disk : Type) `{CacheStore Disk} : Prop := {
  read_missing : forall d p, disk_exists d p = false -> disk_read d p = None;
  write_read : forall d p sc hs b d',
    disk_write d p sc hs b = (true, d') ->
    disk_exists d' p = true /\
    disk_read d' p = Some (common.mkCacheContent sc hs b);
  write_frame : forall d p sc hs b r d' q,
    disk_write d p sc hs b = (r, d') -> q <> p ->
    disk_read d' q = disk_read d q /\
    (disk_exists d q = true -> disk_exists d' q = true);
  mkdirs_frame : forall d p r d' q,
    disk_mkdirs d p = (r, d') ->
    disk_read d' q = disk_read d q /\
    (disk_exists d q = true -> disk_exists d' q = true)
}.

(** ** The state monad of the service *)

Record State (Disk : Type) : Type := mkState {
  disk : Disk;
  history : list Event
}.
Arguments mkState {Disk} _ _.
Arguments disk {Disk} _.
Arguments history {Disk} _.

Definition M (Disk A : Type) : Type := State Disk -> A * State Disk.

#[export] Instance M_ret {Disk} : MRet (M Disk) :=
  fun A (a : A) st => (a, st).
#[export] Instance M_bind {Disk} : MBind (M Disk) :=
  fun A B (f : A -> M Disk B) (m : M Disk A) st =>
    let (a, st') := m st in f a st'.

(** Record an event. *)
Definition emit {Disk} (e : Event) : M Disk unit :=
  fun st => (tt, mkState (disk st) (history st ++ [e])).

(** Ask a remote collaborator: the answer depends on the history, and the
    call is recorded. *)
Definition ask {Disk A} (oracle : list Event -> A) (e : Event) : M Disk A :=
  fun st => (oracle (history st), mkState (disk st) (history st ++ [e])).

(** Read the disk. *)
Definition peek {Disk A} (f : Disk -> A) : M Disk A :=
  fun st => (f (disk st), st).

(** Change the disk. *)
Definition poke {Disk A} (f : Disk -> A * Disk) : M Disk A :=
  fun st => let (a, d) := f (disk st) in (a, mkState d (history st)).

(** ** The service *)

Section Service.

Context {Disk : Type} `{CacheStore Disk}.
Variable env : Env.

(** *** Collaborators, as the service calls them *)

Definition FileExists (path : string) : M Disk bool :=
  peek (fun d => disk_exists d path).

Definition ReadCacheRequest (path : string)
  : M Disk (option common.CacheContent) :=
  peek (fun d => disk_read d path).

Definition WriteCacheRequest (path : string) (statusCode : Z)
    (headers : gmap string string) (body : string) : M Disk bool :=
  poke (fun d => disk_write d path statusCode headers body).

Definition MakeDirs (path : string) : M Disk bool :=
  poke (fun d => disk_mkdirs d path).

Definition ReadDir (path : string) : M Disk (option (list string)) :=
  peek (fun d => disk_readdir d path).

Definition GetFileCommitSha (repoType orgRepo commit : string)
  : M Disk (ResolveError + string) :=
  ask (fun h => resolver env h repoType orgRepo commit)
      (EvResolve repoType orgRepo commit).

Definition RemoteRequestMeta (method repoType orgRepo commit auth : string)
  : M Disk (option common.Response) :=
  ask (fun h => origin_meta env h method repoType orgRepo commit auth)
      (EvRemoteRequestMeta method repoType orgRepo commit auth).

Definition metaDao_RepoRefs (repoType orgRepo auth : string)
  : M Disk (option common.Response) :=
  ask (fun h => origin_refs env h repoType orgRepo auth)
      (EvRepoRefs repoType orgRepo auth).

Definition ErrorResponse (e : error) : M Disk error :=
  emit (EvErrorResponse e) ≫= fun _ => mret e.

Definition ErrorEntryUnknown (code : Z) (msg : string) : M Disk error :=
  ErrorResponse (EntryUnknown code msg).
Definition ErrorProxyError : M Disk error := ErrorResponse ProxyError.
Definition ErrorEntryNotFound : M Disk error := ErrorResponse EntryNotFound.
Definition ErrorPageNotFound : M Disk error := ErrorResponse PageNotFound.
Definition ErrorRepoNotFound : M Disk error := ErrorResponse RepoNotFound.

Definition ResponseHeaders (code : Z) (hs : gmap string string)
  : M Disk (option error) :=
  ask (fun h => emit_headers env h code hs) (EvResponseHeaders code hs).

(** [io.Copy(response, src)]: [true] when the copy went through. *)
Definition io_Copy (body : string) : M Disk bool :=
  ask (fun h => emit_copy env h body) (EvCopy body).

Definition ResponseStream (orgRepo : string) (hs : gmap string string)
    (chunks : list string) : M Disk (option error) :=
  ask (fun h => emit_stream env h orgRepo hs chunks)
      (EvResponseStream orgRepo hs chunks).

(** *** Cache paths *)

(** [fmt.Sprintf("%s/api/%s/%s/revision/%s", repos, repoType, orgRepo, rev)] *)
Definition revisionDir (repoType orgRepo rev : string) : string :=
  Repos (SysConfig env) +:+ "/api/" +:+ repoType +:+ "/" +:+ orgRepo
    +:+ "/revision/" +:+ rev.

(** [fmt.Sprintf("%s/%s", dir, fmt.Sprintf("meta_%s.json", method))] *)
Definition metaPath (repoType orgRepo rev method : string) : string :=
  revisionDir repoType orgRepo rev +:+ "/" +:+ ("meta_" +:+ method +:+ ".json").

(** *** requestAndSaveMeta *)

Definition requestAndSaveMeta (c : Context)
    (repoType orgRepo commit commitSha method : string)
  : M Disk (error + common.CacheContent) :=
  let authorization := authorization c in
  resp ← RemoteRequestMeta method repoType orgRepo commit authorization;
  match resp with
  | None => e ← ErrorEntryNotFound; mret (inl e)
  | Some resp =>
    if negb (Z.eqb (common.RespStatusCode resp) StatusOK)
       && negb (Z.eqb (common.RespStatusCode resp) StatusTemporaryRedirect)
    then e ← ErrorEntryUnknown (common.RespStatusCode resp) "request err";
         mret (inl e)
    else
      let extractHeaders := ExtractHeaders env (common.RespHeaders resp) in
      let apiMainMetaPath := metaPath repoType orgRepo commit method in
      ok ← MakeDirs apiMainMetaPath;
      if negb ok then e ← ErrorProxyError; mret (inl e) else
      ok ← WriteCacheRequest apiMainMetaPath (common.RespStatusCode resp)
             extractHeaders (common.Body resp);
      if negb ok then e ← ErrorProxyError; mret (inl e) else
      let apiMetaPath := metaPath repoType orgRepo commitSha method in
      ok ← MakeDirs apiMetaPath;
      if negb ok then e ← ErrorProxyError; mret (inl e) else
      ok ← WriteCacheRequest apiMetaPath (common.RespStatusCode resp)
             extractHeaders (common.Body resp);
      if negb ok then e ← ErrorProxyError; mret (inl e) else
      mret (inr (common.mkCacheContent (common.RespStatusCode resp)
                   extractHeaders (common.Body resp)))
  end.

(** *** MetaProxyCommon *)

(** Lines 64-82: pick the content to serve.  [inl e] is an early return with
    error [e]; otherwise the pointer [cacheContent]. *)
Definition metaCacheContent (c : Context)
    (repoType orgRepo commit commitSha method : string)
  : M Disk (error + option common.CacheContent) :=
  let apiMetaPath := metaPath repoType orgRepo commitSha method in
  if Online (SysConfig env) then
    ex ← FileExists apiMetaPath;
    if (ex : bool) then
      r ← ReadCacheRequest apiMetaPath;
      match r with
      | Some cc => mret (inr (Some cc))
      | None =>
        r ← requestAndSaveMeta c repoType orgRepo commit commitSha method;
        match r with
        | inl e => mret (inl e)
        | inr cc => mret (inr (Some cc))
        end
      end
    else
      r ← requestAndSaveMeta c repoType orgRepo commit commitSha method;
      match r with
      | inl e => mret (inl e)
      | inr cc => mret (inr (Some cc))
      end
  else
    r ← ReadCacheRequest apiMetaPath;
    match r with
    | Some cc => mret (inr (Some cc))
    | None => e ← ErrorProxyError; mret (inl e)
    end.

(** Lines 83-100: hand the content to the client. *)
Definition metaRespond (method : string)
    (cacheContent : option common.CacheContent) : M Disk (option error) :=
  match cacheContent with
  | Some cc =>
    if String.eqb method (RequestTypeHead env) then
      ResponseHeaders (common.StatusCode cc) (common.Headers cc)
    else
      _ ← emit (EvWriteHeader (common.StatusCode cc) (common.Headers cc));
      ok ← io_Copy (common.OriginContent cc);
      if negb ok then e ← ErrorProxyError; mret (Some e) else mret None
  | None => e ← ErrorProxyError; mret (Some e)
  end.

Definition MetaProxyCommon (c : Context)
    (repoType orgRepo commit method : string) : M Disk (option error) :=
  r ← GetFileCommitSha repoType orgRepo commit;
  match r with
  | inl (MyErr code msg) => e ← ErrorEntryUnknown code msg; mret (Some e)
  | inl PlainErr => e ← ErrorProxyError; mret (Some e)
  | inr commitSha =>
    r ← metaCacheContent c repoType orgRepo commit commitSha method;
    match r with
    | inl e => mret (Some e)
    | inr cacheContent => metaRespond method cacheContent
    end
  end.

(** *** RepoRefs *)

(** [fmt.Sprintf("%s/%s", fmt.Sprintf("%s/api/%s/%s/refs", ...), "refs_get.json")] *)
Definition refsPath (repoType orgRepo : string) : string :=
  (Repos (SysConfig env) +:+ "/api/" +:+ repoType +:+ "/" +:+ orgRepo
     +:+ "/refs") +:+ "/" +:+ "refs_get.json".

(** Lines 174-196: pick the content to stream.  The content built after a
    fetch sets [Headers] and [OriginContent] only: [StatusCode] stays at
    Go's zero value. *)
Definition refsCacheContent (repoType orgRepo authorization : string)
  : M Disk (error + common.CacheContent) :=
  let localRefsPath := refsPath repoType orgRepo in
  ex ← (if negb (Online (SysConfig env)) then FileExists localRefsPath
        else mret false);
  if (ex : bool) then
    r ← ReadCacheRequest localRefsPath;
    match r with
    | None => e ← ErrorProxyError; mret (inl e)
    | Some cc => mret (inr cc)
    end
  else
    resp ← metaDao_RepoRefs repoType orgRepo authorization;
    match resp with
    | None => e ← ErrorProxyError; mret (inl e)
    | Some resp =>
      let extractHeaders := ExtractHeaders env (common.RespHeaders resp) in
      ok ← WriteCacheRequest localRefsPath (common.RespStatusCode resp)
             extractHeaders (common.Body resp);
      if negb ok then e ← ErrorProxyError; mret (inl e) else
      mret (inr (common.mkCacheContent 0 extractHeaders (common.Body resp)))
    end.

(** The channel of [RepoRefs] is given the one chunk and closed before the
    emitter reads it: the emitter receives the list of chunks. *)
Definition RepoRefs (c : Context) (repoType org repo : string)
  : M Disk (option error) :=
  let orgRepo := GetOrgRepo env org repo in
  if negb (bool_decide (repoType ∈ RepoTypesMapping env)) then
    e ← ErrorPageNotFound; mret (Some e)
  else if String.eqb org "" && String.eqb repo "" then
    e ← ErrorRepoNotFound; mret (Some e)
  else
    let authorization := authorization c in
    let localRefsPath := refsPath repoType orgRepo in
    ok ← MakeDirs localRefsPath;
    if negb ok then e ← ErrorProxyError; mret (Some e) else
    r ← refsCacheContent repoType orgRepo authorization;
    match r with
    | inl e => mret (Some e)
    | inr cacheContent =>
      let bodyStreamChan := [common.OriginContent cacheContent] in
      ResponseStream orgRepo (common.Headers cacheContent) bodyStreamChan
    end.

(** *** The directory listing assembler

    The assembler only reads the disk and answers its caller: it is a
    function of the disk. *)

(** The comparison handed to [sort.Slice]. *)
Definition less (a b : FileDescribe) : bool :=
  if IsDir a && negb (IsDir b) then true
  else if negb (IsDir a) && IsDir b then false
  else String.ltb (Name a) (Name b).

(** [sort.Slice] belongs to Go's library.  It is modelled by the insertion
    sort the library runs on short slices: element [i] moves left while it is
    [less] than its left neighbour.  [sift x rprefix] does this for [x], the
    sorted prefix being given from right to left.  On longer slices the
    library switches to another algorithm, which is not stable: it may
    leave nodes that are tied under [less] in another order.  This makes
    no difference to what [RepositoryFiles] returns, where tied nodes are
    equal (see [listing_independent_of_sort]), nor to a sequence without
    ties (see [sortNodes_canonical]); nothing below rests on the order in
    which [sortNodes] leaves tied nodes that differ. *)
Fixpoint sift (x : FileDescribe) (rprefix : list FileDescribe)
  : list FileDescribe :=
  match rprefix with
  | [] => [x]
  | y :: r => if less x y then y :: sift x r else x :: y :: r
  end.

Definition sortNodes (nodes : list FileDescribe) : list FileDescribe :=
  rev (foldl (fun rprefix x => sift x rprefix) [] nodes).

(** The loop of [analysisFile]: the size of the first element whose path is
    [fileName]; [size] when there is none. *)
Fixpoint findSize (fileName : string) (infos : list common.PathsInfo)
    (size : Z) : Z :=
  match infos with
  | [] => size
  | item :: rest =>
    if String.eqb (common.Path item) fileName then common.Size item
    else findSize fileName rest size
  end.

(** [fmt.Sprintf("%s/%s", filePath, fileName)] when [filePath] is not empty. *)
Definition relativePath (filePath fileName : string) : string :=
  if negb (String.eqb filePath "") then filePath +:+ "/" +:+ fileName
  else fileName.

Definition analysisFile (d : Disk) (pathInfoShaDir filePath fileName : string)
  : error + FileDescribe :=
  let pathInfoPath :=
    pathInfoShaDir +:+ "/" +:+ fileName +:+ "/paths-info_post.json" in
  if disk_exists d pathInfoPath then
    match disk_read d pathInfoPath with
    | None => inl ReadError
    | Some cacheContent =>
      match Unmarshal env (common.OriginContent cacheContent) with
      | None => inl UnmarshalError
      | Some remoteRespPathsInfos =>
        let fileName' := relativePath filePath fileName in
        inr (mkFileDescribe fileName
               (findSize fileName' remoteRespPathsInfos 0) false "")
      end
    end
  else inr (mkFileDescribe fileName 0 true "").

(** [pathsInfoShaDir] of [RepositoryFiles]. *)
Definition pathsInfoDir (repoType orgRepo commit filePath : string) : string :=
  let pathsInfoShaDir :=
    Repos (SysConfig env) +:+ "/api/" +:+ repoType +:+ "/" +:+ orgRepo
      +:+ "/paths-info/" +:+ commit in
  if negb (String.eqb filePath "") then pathsInfoShaDir +:+ ("/" +:+ filePath)
  else pathsInfoShaDir.

(** [downloadLinkRoot] of [RepositoryFiles]. *)
Definition downloadLinkRoot (repoType orgRepo commit : string) : string :=
  PublicDomain (SysConfig env) +:+ "/" +:+ repoType +:+ "/" +:+ orgRepo
    +:+ "/resolve/" +:+ commit.

(** One turn of the loop over the directory entries. *)
Definition describeEntry (d : Disk) (repoType orgRepo commit filePath : string)
    (fileDescribes : list FileDescribe) (item : string)
  : list FileDescribe :=
  match analysisFile d (pathsInfoDir repoType orgRepo commit filePath)
          filePath item with
  | inl _ => fileDescribes
  | inr fileDescribe =>
    let fileDescribe :=
      if negb (IsDir fileDescribe) then
        mkFileDescribe (Name fileDescribe) (Size fileDescribe)
          (IsDir fileDescribe)
          (downloadLinkRoot repoType orgRepo commit +:+ "/"
             +:+ relativePath filePath item)
      else fileDescribe in
    fileDescribes ++ [fileDescribe]
  end.

Definition RepositoryFiles (d : Disk) (repoType orgRepo commit filePath : string)
  : error + list FileDescribe :=
  let pathsInfoShaDir := pathsInfoDir repoType orgRepo commit filePath in
  if negb (disk_exists d pathsInfoShaDir) then inl FileNotExists
  else
    match disk_readdir d pathsInfoShaDir with
    | None => inl ReadDirError
    | Some files =>
      inr (sortNodes
             (foldl (describeEntry d repoType orgRepo commit filePath)
                    [] files))
    end.

End Service.

(** ** An in-memory cache store *)

(** Modelled from the spec: the cache store is outside the service file.
    This instance follows the interface the spec gives for it (existence
    check, read, write, directory creation and enumeration), with files that
    cannot be read back and paths at which writing or directory creation
    fails.  The examples below run the service on it. *)
Record MemDisk : Type := mkMemDisk {
  files : gmap string (option common.CacheContent);
  dirs : gmap string (list string);
  write_denied : list string;
  mkdirs_denied : list string
}.

Definition mem_exists (d : MemDisk) (p : string) : bool :=
  bool_decide (is_Some (files d !! p)) || bool_decide (is_Some (dirs d !! p)).

Definition mem_read (d : MemDisk) (p : string) : option common.CacheContent :=
  match files d !! p with
  | Some (Some cc) => Some cc
  | _ => None
  end.

Definition mem_write (d : MemDisk) (p : string) (sc : Z)
    (hs : gmap string string) (b : string) : bool * MemDisk :=
  if bool_decide (p ∈ write_denied d) then (false, d)
  else (true, mkMemDisk (<[p := Some (common.mkCacheContent sc hs b)]> (files d))
                (dirs d) (write_denied d) (mkdirs_denied d)).

Definition mem_mkdirs (d : MemDisk) (p : string) : bool * MemDisk :=
  if bool_decide (p ∈ mkdirs_denied d) then (false, d) else (true, d).

Definition mem_readdir (d : MemDisk) (p : string) : option (list string) :=
  dirs d !! p.

#[export] Instance MemDisk_store : CacheStore MemDisk := {
  disk_exists := mem_exists;
  disk_read := mem_read;
  disk_write := mem_write;
  disk_mkdirs := mem_mkdirs;
  disk_readdir := mem_readdir
}.

(** ** A small environment for the examples *)

(** A decoder for paths-info files, in the place of the JSON library: it
    reads an array of objects with a string field "path" followed by a
    natural number field "size", without white space. *)
Module Json.

Definition quote : string := String "034"%char EmptyString.

Fixpoint strip (prefix s : string) : option string :=
  match prefix, s with
  | EmptyString, _ => Some s
  | String a p, String b r => if Ascii.eqb a b then strip p r else None
  | String _ _, EmptyString => None
  end.

(** The characters up to the next quote, and what follows the quote. *)
Fixpoint until_quote (s : string) : option (string * string) :=
  match s with
  | EmptyString => None
  | String a r =>
    if Ascii.eqb a "034"%char then Some (EmptyString, r)
    else match until_quote r with
         | Some (w, rest) => Some (String a w, rest)
         | None => None
         end
  end.

Definition digit (a : ascii) : option Z :=
  let n := Z.of_N (N_of_ascii a) in
  if (48 <=? n)%Z && (n <=? 57)%Z then Some (n - 48)%Z else None.

(** The digits at the front of [s], read as a number after [acc]. *)
Fixpoint digits (s : string) (acc : Z) : Z * string :=
  match s with
  | EmptyString => (acc, s)
  | String a r =>
    match digit a with
    | Some v => digits r (10 * acc + v)%Z
    | None => (acc, s)
    end
  end.

Definition number (s : string) : option (Z * string) :=
  match s with
  | EmptyString => None
  | String a _ =>
    match digit a with
    | Some _ => Some (digits s 0)
    | None => None
    end
  end.

Definition object (s : string) : option (common.PathsInfo * string) :=
  s ← strip ("{" +:+ quote +:+ "path" +:+ quote +:+ ":" +:+ quote) s;
  '(path, s) ← until_quote s;
  s ← strip ("," +:+ quote +:+ "size" +:+ quote +:+ ":") s;
  '(size, s) ← number s;
  s ← strip "}" s;
  Some (common.mkPathsInfo path size, s).

(** The objects of an array after its first one, up to the bracket. *)
Fixpoint objects (fuel : nat) (s : string) : option (list common.PathsInfo) :=
  match fuel with
  | O => None
  | S fuel =>
    match s with
    | String "]"%char EmptyString => Some []
    | String ","%char r =>
      '(o, r) ← object r;
      os ← objects fuel r;
      Some (o :: os)
    | _ => None
    end
  end.

Definition decode (s : string) : option (list common.PathsInfo) :=
  match s with
  | String "["%char (String "]"%char EmptyString) => Some []
  | String "["%char r =>
    '(o, r) ← object r;
    os ← objects (String.length s) r;
    Some (o :: os)
  | _ => None
  end.

(** The text of one object and of an array of objects. *)
Definition field (k : string) : string := quote +:+ k +:+ quote +:+ ":".
Definition entry (path size : string) : string :=
  "{" +:+ field "path" +:+ quote +:+ path +:+ quote +:+ ","
      +:+ field "size" +:+ size +:+ "}".

End Json.

(** [util.GetOrgRepo] as the repository has it: the repository name alone
    when there is no organisation. *)
Definition demo_GetOrgRepo (org repo : string) : string :=
  if String.eqb org "" then repo else org +:+ "/" +:+ repo.

Definition demo_config (online : bool) : Config :=
  mkConfig "/repos" online "http://mirror".

(** An environment whose resolver and origin always give the same answer,
    and whose emitter succeeds unless [copy_ok] says that copying fails. *)
Definition demo_env (online : bool) (sha : ResolveError + string)
    (resp : option common.Response) (copy_ok : bool) : Env :=
  mkEnv (demo_config online) "head" ["models"; "datasets"; "spaces"]
        demo_GetOrgRepo (fun hs => hs) Json.decode
        (fun _ _ _ _ => sha)
        (fun _ _ _ _ _ _ => resp)
        (fun _ _ _ _ => resp)
        (fun _ _ _ => None)
        (fun _ _ => copy_ok)
        (fun _ _ _ _ => None).

Definition demo_ctx : Context := mkContext "Bearer t".

Definition empty_disk : MemDisk := mkMemDisk ∅ ∅ [] [].

Definition demo_headers : gmap string string := {[ "etag" := "abc" ]}.

Definition demo_response (code : Z) : common.Response :=
  common.mkResponse code demo_headers "payload".

Definition demo_content (code : Z) : common.CacheContent :=
  common.mkCacheContent code demo_headers "payload".

(** Run a computation of the service from a disk and an empty history. *)
Definition run {Disk A} (m : M Disk A) (d : Disk) : A * State Disk :=
  m (mkState d []).

(** The events a computation adds to the history. *)
Definition new_events {Disk} (st st' : State Disk) : list Event :=
  drop (length (history st)) (history st').

(** The events of the emission of [cc] for [method], before a possible
    error response. *)
Definition respond_events (env : Env) (method : string)
    (cc : common.CacheContent) : list Event :=
  if String.eqb method (RequestTypeHead env) then
    [EvResponseHeaders (common.StatusCode cc) (common.Headers cc)]
  else
    [EvWriteHeader (common.StatusCode cc) (common.Headers cc);
     EvCopy (common.OriginContent cc)].

(** Disks of the examples: nothing can be written at the commit-keyed path
    of [sha1]; no directory can be made for it. *)
Definition sha1_meta_path : string :=
  "/repos/api/models/org/repo/revision/sha1/meta_get.json".
Definition main_meta_path : string :=
  "/repos/api/models/org/repo/revision/main/meta_get.json".
Definition disk_sha1_readonly : MemDisk := mkMemDisk ∅ ∅ [sha1_meta_path] [].
Definition disk_sha1_nodir : MemDisk := mkMemDisk ∅ ∅ [] [sha1_meta_path].

(** Disks with a cached entry: the metadata of commit [sha1] for GET and for
    HEAD; the refs of the repository, readable or not. *)
Definition sha1_head_path : string :=
  "/repos/api/models/org/repo/revision/sha1/meta_head.json".
Definition refs_path : string := "/repos/api/models/org/repo/refs/refs_get.json".

Definition disk_cached : MemDisk :=
  mkMemDisk {[ sha1_meta_path := Some (demo_content 200);
               sha1_head_path := Some (demo_content 200) ]} ∅ [] [].

Definition old_refs : common.CacheContent :=
  common.mkCacheContent 200 ∅ "old refs".

Definition disk_refs_cached : MemDisk :=
  mkMemDisk {[ refs_path := Some old_refs ]} ∅ [] [].

Definition disk_refs_unreadable : MemDisk :=
  mkMemDisk {[ refs_path := None ]} ∅ [] [].

(** A disk for the listing examples: the root of commit [sha1] holds
    [b.txt], [a_dir] and [a.txt], where [a_dir] has no paths-info file; its
    directory [sub] holds [a.txt], [bad.bin], whose paths-info file does not
    decode, and [c.txt]. *)
Definition listing_root : string := "/repos/api/models/org/repo/paths-info/sha1".

Definition paths_info_file (body : string) : option common.CacheContent :=
  Some (common.mkCacheContent 200 ∅ body).

Definition listing_disk : MemDisk :=
  mkMemDisk
    (list_to_map
       [(listing_root +:+ "/a.txt/paths-info_post.json",
         paths_info_file ("[" +:+ Json.entry "a.txt" "7" +:+ "]"));
        (listing_root +:+ "/b.txt/paths-info_post.json",
         paths_info_file ("[" +:+ Json.entry "b.txt" "9" +:+ "]"));
        (listing_root +:+ "/sub/a.txt/paths-info_post.json",
         paths_info_file ("[" +:+ Json.entry "sub/a.txt" "42" +:+ "]"));
        (listing_root +:+ "/sub/bad.bin/paths-info_post.json",
         paths_info_file "[{oops");
        (listing_root +:+ "/sub/c.txt/paths-info_post.json",
         paths_info_file ("[" +:+ Json.entry "sub/b.txt" "1" +:+ ","
                              +:+ Json.entry "sub/c.txt" "5" +:+ "]"))])
    (list_to_map
       [(listing_root, ["b.txt"; "a_dir"; "a.txt"]);
        (listing_root +:+ "/sub", ["a.txt"; "bad.bin"; "c.txt"])])
    [] [].

Definition listing_env : Env := demo_env true (inr "sha1") None true.

(** The paths-info file of a directory entry cannot be used: it is there,
    and reading it or decoding its content fails. *)
Definition entry_fails {Disk} `{CacheStore Disk} (env : Env) (d : Disk)
    (dir item : string) : bool :=
  let p := dir +:+ "/" +:+ item +:+ "/paths-info_post.json" in
  disk_exists d p &&
  match disk_read d p with
  | None => true
  | Some cc =>
    match Unmarshal env (common.OriginContent cc) with
    | None => true
    | Some _ => false
    end
  end.

(** What the loop of [RepositoryFiles] appends for a directory entry, if
    anything. *)
Definition describedEntry {Disk} `{CacheStore Disk} (env : Env) (d : Disk)
    (repoType orgRepo commit filePath item : string) : option FileDescribe :=
  match describeEntry env d repoType orgRepo commit filePath [] item with
  | [fileDescribe] => Some fileDescribe
  | _ => None
  end.

(** [a] may stand before [b] in the sorted listing. *)
Definition node_le (a b : FileDescribe) : Prop := less b a = false.

(** ** ForwardToNewSite

    The handler asks [metaDao.ForwardRefs] for the upstream answer, copies
    the headers, the status and the body of the answer to the response of
    the echo context, and closes the body of the answer when it returns.
    What the upstream says and how the copy ends are given; the response
    writer is the state. *)
Module forward.

(** The upstream [http.Response], as the handler uses it: a header may have
    several values. *)
Record HttpResponse : Type := mkHttpResponse {
  StatusCode : Z;
  Header : gmap string (list string);
  Body : string
}.

(** How [io.Copy(response, resp.Body)] ended: it delivered the whole body,
    or it failed after delivering the first [n] bytes of it. *)
Inductive CopyOutcome : Type :=
  | Copied
  | CopyFailed (n : nat).

(** The first [n] bytes of [s], all of [s] when it is shorter. *)
Fixpoint take (n : nat) (s : string) : string :=
  match n, s with
  | S n, String a r => String a (take n r)
  | _, _ => ""
  end.

(** The response of the echo context: its headers, the status written, the
    bytes of the body that reached it; the error response of [pkg/util];
    whether the body of the upstream answer has been closed. *)
Record Writer : Type := mkWriter {
  header : gmap string (list string);
  status : option Z;
  written : option string;
  error_sent : option error;
  closed : bool
}.

(** The loop [for k, v := range resp.Header { response.Header()[k] = v }].
    The keys of a map are distinct, so the order of the range does not
    matter. *)
Definition copyHeaders (upstream mine : gmap string (list string))
  : gmap string (list string) :=
  map_fold (fun k v acc => <[k := v]> acc) mine upstream.

Definition ForwardToNewSite (answer : option HttpResponse)
    (copy : CopyOutcome) (w : Writer) : option error * Writer :=
  match answer with
  | None =>
    (Some ProxyError,
     mkWriter (header w) (status w) (written w) (Some ProxyError) (closed w))
  | Some resp =>
    let h := copyHeaders (Header resp) (header w) in
    match copy with
    | Copied =>
      (None,
       mkWriter h (Some (StatusCode resp)) (Some (Body resp))
         (error_sent w) true)
    | CopyFailed n =>
      (Some ProxyError,
       mkWriter h (Some (StatusCode resp)) (Some (take n (Body resp)))
         (Some ProxyError) true)
    end
  end.

End forward.

(** A response writer on which a middleware has set two headers, and an
    upstream answer that sets one of them and a further one. *)
Definition fresh_writer : forward.Writer :=
  forward.mkWriter
    {[ "Server" := ["dingo"]; "Vary" := ["Origin"] ]} None None None false.

Definition upstream_answer : forward.HttpResponse :=
  forward.mkHttpResponse 502
    {[ "Vary" := ["Accept"; "Cookie"]; "Etag" := ["abc"] ]} "bad gateway".

(** Disks of the further examples: an entry of commit [sha1] that cannot be
    read; the refs path with its directory or its file that cannot be
    written; the listing disk with its root enumerated in another order,
    and with an entry enumerated twice; a listing with an entry whose
    paths-info file names another path. *)
Definition disk_unreadable : MemDisk :=
  mkMemDisk {[ sha1_meta_path := None ]} ∅ [] [].

Definition disk_refs_nodir : MemDisk := mkMemDisk ∅ ∅ [] [refs_path].
Definition disk_refs_readonly : MemDisk := mkMemDisk ∅ ∅ [refs_path] [].

Definition listing_disk_reordered : MemDisk :=
  mkMemDisk (files listing_disk)
    (<[ listing_root := ["a.txt"; "b.txt"; "a_dir"] ]> (dirs listing_disk))
    [] [].

Definition listing_disk_repeated : MemDisk :=
  mkMemDisk (files listing_disk)
    (<[ listing_root := ["a.txt"; "a_dir"; "a.txt"] ]> (dirs listing_disk))
    [] [].

Definition stray_disk : MemDisk :=
  mkMemDisk
    {[ listing_root +:+ "/sub/a.txt/paths-info_post.json" :=
         paths_info_file ("[" +:+ Json.entry "a.txt" "42" +:+ "]") ]}
    {[ listing_root +:+ "/sub" := ["a.txt"] ]}
    [] [].

(** ** Proof automation *)

(** Unfold the monad down to state passing. *)
Ltac exec :=
  unfold mbind, mret, M_bind, M_ret, ask, peek, poke, emit in *; simpl in *.

Ltac unfold_collaborators :=
  unfold FileExists, ReadCacheRequest, WriteCacheRequest, MakeDirs, ReadDir,
    GetFileCommitSha, RemoteRequestMeta, metaDao_RepoRefs,
    ErrorEntryUnknown, ErrorProxyError, ErrorEntryNotFound,
    ErrorPageNotFound, ErrorRepoNotFound, ErrorResponse,
    ResponseHeaders, io_Copy, ResponseStream in *.

(** * Properties *)

#[export] Instance MemDisk_laws : CacheStoreLaws MemDisk.
Proof.
  split; simpl.
  - intros d p. unfold mem_exists, mem_read.
    destruct (files d !! p) as [o|] eqn:E; [|done].
    rewrite bool_decide_eq_true_2; [done | by eexists].
  - intros d p sc hs b d'. unfold mem_write.
    case_bool_decide; [done|]. intros [= <-].
    unfold mem_exists, mem_read; simpl. rewrite lookup_insert_eq.
    split; [|done]. rewrite bool_decide_eq_true_2; [done | by eexists].
  - intros d p sc hs b r d' q. unfold mem_write.
    case_bool_decide; intros [= <- <-] Hq; [done|].
    unfold mem_exists, mem_read; simpl.
    rewrite lookup_insert_ne by done. done.
  - intros d p r d' q. unfold mem_mkdirs.
    case_bool_decide; intros [= <- <-]; done.
Qed.

Example json_decode_one :
  Json.decode ("[" +:+ Json.entry "sub/a.txt" "42" +:+ "]")
  = Some [common.mkPathsInfo "sub/a.txt" 42].
Proof. vm_compute. reflexivity. Qed.
Example json_decode_two :
  Json.decode ("[" +:+ Json.entry "a" "1" +:+ "," +:+ Json.entry "b/c" "20" +:+ "]")
  = Some [common.mkPathsInfo "a" 1; common.mkPathsInfo "b/c" 20].
Proof. vm_compute. reflexivity. Qed.
Example json_decode_bad : Json.decode "[{oops" = None.
Proof. vm_compute. reflexivity. Qed.

(** ** The metadata proxy *)

Lemma new_events_app {Disk} (st st' : State Disk) evs :
  history st' = history st ++ evs -> new_events st st' = evs.
Proof. unfold new_events. intros ->. by rewrite drop_app_length. Qed.

Lemma status_accepted (sc : Z) :
  sc = StatusOK \/ sc = StatusTemporaryRedirect ->
  negb (Z.eqb sc StatusOK) && negb (Z.eqb sc StatusTemporaryRedirect) = false.
Proof. intros [-> | ->]; reflexivity. Qed.

Lemma status_rejected (sc : Z) :
  sc <> StatusOK -> sc <> StatusTemporaryRedirect ->
  negb (Z.eqb sc StatusOK) && negb (Z.eqb sc StatusTemporaryRedirect) = true.
Proof.
  intros H1 H2.
  destruct (Z.eqb_spec sc StatusOK); [done|].
  destruct (Z.eqb_spec sc StatusTemporaryRedirect); done.
Qed.

Section Proxy.

Context {Disk : Type} `{CacheStoreLaws Disk}.
Variable env : Env.

(** What [requestAndSaveMeta] does once the origin has answered with an
    accepted status, in terms of the four disk operations. *)
Lemma requestAndSaveMeta_accepted c repoType orgRepo commit commitSha method
    (st : State Disk) resp :
  origin_meta env (history st) method repoType orgRepo commit (authorization c)
    = Some resp ->
  common.RespStatusCode resp = StatusOK \/
  common.RespStatusCode resp = StatusTemporaryRedirect ->
  let pr := metaPath env repoType orgRepo commit method in
  let pc := metaPath env repoType orgRepo commitSha method in
  let sc := common.RespStatusCode resp in
  let hs := ExtractHeaders env (common.RespHeaders resp) in
  let b := common.Body resp in
  let h := history st
             ++ [EvRemoteRequestMeta method repoType orgRepo commit
                   (authorization c)] in
  forall ok1 d1 ok2 d2 ok3 d3 ok4 d4,
    disk_mkdirs (disk st) pr = (ok1, d1) ->
    disk_write d1 pr sc hs b = (ok2, d2) ->
    disk_mkdirs d2 pc = (ok3, d3) ->
    disk_write d3 pc sc hs b = (ok4, d4) ->
    requestAndSaveMeta env c repoType orgRepo commit commitSha method st =
      if negb ok1 then
        (inl ProxyError, mkState d1 (h ++ [EvErrorResponse ProxyError]))
      else if negb ok2 then
        (inl ProxyError, mkState d2 (h ++ [EvErrorResponse ProxyError]))
      else if negb ok3 then
        (inl ProxyError, mkState d3 (h ++ [EvErrorResponse ProxyError]))
      else if negb ok4 then
        (inl ProxyError, mkState d4 (h ++ [EvErrorResponse ProxyError]))
      else (inr (common.mkCacheContent sc hs b), mkState d4 h).
Proof.
  intros Ho Hs pr pc sc hs b h ok1 d1 ok2 d2 ok3 d3 ok4 d4 H1 H2 H3 H4.
  unfold requestAndSaveMeta. unfold_collaborators. exec.
  rewrite Ho, (status_accepted _ Hs). simpl.
  fold pr pc sc hs b. rewrite H1. simpl.
  destruct ok1; simpl; [|done]. rewrite H2. simpl.
  destruct ok2; simpl; [|done]. rewrite H3. simpl.
  destruct ok3; simpl; [|done]. rewrite H4. simpl.
  destruct ok4; simpl; done.
Qed.

(** C1. Dual-write consistency.  The origin answered the fetch for revision
    [r] with an accepted status.  Name the outcomes of the four disk
    operations of [requestAndSaveMeta]: directory and write for the path
    keyed by [r], then directory and write for the path keyed by the commit.
    If all four succeed, the call returns the fetched content, and both
    paths exist and read back that same content (status, headers and body).
    If one fails, the call ends there with a proxy error sent to the client,
    and the disk is the one the failing operation left: nothing is undone,
    so a completed write under [r] still reads back (for a failing second
    write, when the two paths differ). *)
Theorem dual_write_consistency c repoType orgRepo r commitSha method
    (st : State Disk) resp :
  origin_meta env (history st) method repoType orgRepo r (authorization c)
    = Some resp ->
  common.RespStatusCode resp = StatusOK \/
  common.RespStatusCode resp = StatusTemporaryRedirect ->
  let pr := metaPath env repoType orgRepo r method in
  let pc := metaPath env repoType orgRepo commitSha method in
  let sc := common.RespStatusCode resp in
  let hs := ExtractHeaders env (common.RespHeaders resp) in
  let b := common.Body resp in
  let cc := common.mkCacheContent sc hs b in
  let call := requestAndSaveMeta env c repoType orgRepo r commitSha method st in
  let aborted :=
    call.1 = inl ProxyError /\
    new_events st call.2 =
      [EvRemoteRequestMeta method repoType orgRepo r (authorization c);
       EvErrorResponse ProxyError] in
  forall ok1 d1 ok2 d2 ok3 d3 ok4 d4,
    disk_mkdirs (disk st) pr = (ok1, d1) ->
    disk_write d1 pr sc hs b = (ok2, d2) ->
    disk_mkdirs d2 pc = (ok3, d3) ->
    disk_write d3 pc sc hs b = (ok4, d4) ->
    (ok1 = true -> ok2 = true -> ok3 = true -> ok4 = true ->
       call.1 = inr cc /\ disk call.2 = d4 /\
       disk_exists d4 pr = true /\ disk_exists d4 pc = true /\
       disk_read d4 pr = Some cc /\ disk_read d4 pc = Some cc) /\
    (ok1 = false -> aborted /\ disk call.2 = d1) /\
    (ok1 = true -> ok2 = false -> aborted /\ disk call.2 = d2) /\
    (ok1 = true -> ok2 = true -> ok3 = false ->
       aborted /\ disk call.2 = d3 /\
       disk_exists d3 pr = true /\ disk_read d3 pr = Some cc) /\
    (ok1 = true -> ok2 = true -> ok3 = true -> ok4 = false ->
       aborted /\ disk call.2 = d4 /\
       (pr <> pc -> disk_exists d4 pr = true /\ disk_read d4 pr = Some cc)).
Proof.
  intros Ho Hs pr pc sc hs b cc call aborted
         ok1 d1 ok2 d2 ok3 d3 ok4 d4 H1 H2 H3 H4.
  pose proof (requestAndSaveMeta_accepted c repoType orgRepo r commitSha
                method st resp Ho Hs _ _ _ _ _ _ _ _ H1 H2 H3 H4) as E.
  subst aborted call. rewrite E. clear E.
  assert (Hr2 : ok2 = true ->
                disk_exists d2 pr = true /\ disk_read d2 pr = Some cc).
  { intros ->. exact (write_read _ _ _ _ _ _ H2). }
  assert (Hr3 : ok2 = true ->
                disk_exists d3 pr = true /\ disk_read d3 pr = Some cc).
  { intros Hk. destruct (Hr2 Hk) as [He Hd].
    destruct (mkdirs_frame _ _ _ _ pr H3) as [-> Hx]. auto. }
  assert (Hr4 : ok2 = true -> pr <> pc ->
                disk_exists d4 pr = true /\ disk_read d4 pr = Some cc).
  { intros Hk Hne. destruct (Hr3 Hk) as [He Hd].
    destruct (write_frame _ _ _ _ _ _ _ pr H4 Hne) as [-> Hx]. auto. }
  assert (Hw4 : ok4 = true ->
                disk_exists d4 pc = true /\ disk_read d4 pc = Some cc).
  { intros ->. exact (write_read _ _ _ _ _ _ H4). }
  assert (Hev : forall e1 e2 d,
            new_events st (mkState d ((history st ++ [e1]) ++ [e2]))
            = [e1; e2]).
  { intros. apply new_events_app. simpl. by rewrite <- app_assoc. }
  split; [|split; [|split; [|split]]].
  - intros -> -> -> ->. simpl.
    destruct (Hw4 eq_refl) as [Hx Hy].
    destruct (decide (pr = pc)) as [Heq | Hne].
    + rewrite Heq. auto 10.
    + destruct (Hr4 eq_refl Hne). auto 10.
  - intros ->. simpl. auto.
  - intros -> ->. simpl. auto.
  - intros -> -> ->. simpl. destruct (Hr3 eq_refl). auto 10.
  - intros -> -> -> ->. simpl. auto 10.
Qed.

(** *** One call of [MetaProxyCommon], path by path *)

Lemma requestAndSaveMeta_transport c repoType orgRepo commit commitSha method
    (st : State Disk) :
  origin_meta env (history st) method repoType orgRepo commit (authorization c)
    = None ->
  requestAndSaveMeta env c repoType orgRepo commit commitSha method st =
    (inl EntryNotFound,
     mkState (disk st)
       (history st
          ++ [EvRemoteRequestMeta method repoType orgRepo commit
                (authorization c); EvErrorResponse EntryNotFound])).
Proof.
  intros Ho. unfold requestAndSaveMeta. unfold_collaborators. exec.
  rewrite Ho. simpl. by rewrite <- app_assoc.
Qed.

Lemma requestAndSaveMeta_rejected c repoType orgRepo commit commitSha method
    (st : State Disk) resp :
  origin_meta env (history st) method repoType orgRepo commit (authorization c)
    = Some resp ->
  common.RespStatusCode resp <> StatusOK ->
  common.RespStatusCode resp <> StatusTemporaryRedirect ->
  requestAndSaveMeta env c repoType orgRepo commit commitSha method st =
    (inl (EntryUnknown (common.RespStatusCode resp) "request err"),
     mkState (disk st)
       (history st
          ++ [EvRemoteRequestMeta method repoType orgRepo commit
                (authorization c);
              EvErrorResponse
                (EntryUnknown (common.RespStatusCode resp) "request err")])).
Proof.
  intros Ho H1 H2. unfold requestAndSaveMeta. unfold_collaborators. exec.
  rewrite Ho, (status_rejected _ H1 H2). simpl. by rewrite <- app_assoc.
Qed.

(** Online, entry present and readable: the content comes from the cache
    and the state is untouched. *)
Lemma metaCacheContent_hit c repoType orgRepo commit commitSha method
    (st : State Disk) cc :
  Online (SysConfig env) = true ->
  disk_exists (disk st) (metaPath env repoType orgRepo commitSha method) = true ->
  disk_read (disk st) (metaPath env repoType orgRepo commitSha method)
    = Some cc ->
  metaCacheContent env c repoType orgRepo commit commitSha method st
  = (inr (Some cc), st).
Proof.
  intros Hon He Hr. unfold metaCacheContent. unfold_collaborators. exec.
  rewrite Hon. simpl. rewrite He. simpl. rewrite Hr. reflexivity.
Qed.

(** Online, entry absent or unreadable: the content is what
    [requestAndSaveMeta] gives. *)
Lemma metaCacheContent_miss c repoType orgRepo commit commitSha method
    (st : State Disk) :
  Online (SysConfig env) = true ->
  disk_exists (disk st) (metaPath env repoType orgRepo commitSha method) = false
  \/ disk_read (disk st) (metaPath env repoType orgRepo commitSha method)
     = None ->
  metaCacheContent env c repoType orgRepo commit commitSha method st
  = let call :=
      requestAndSaveMeta env c repoType orgRepo commit commitSha method st in
    (match call.1 with inl e => inl e | inr cc => inr (Some cc) end, call.2).
Proof.
  intros Hon Hmiss. unfold metaCacheContent. unfold_collaborators. exec.
  rewrite Hon. simpl.
  destruct (disk_exists _ _) eqn:He; simpl.
  - destruct Hmiss as [? | ->]; [done|].
    destruct (requestAndSaveMeta _ _ _ _ _ _ _ _) as [[e | cc] st']; done.
  - destruct (requestAndSaveMeta _ _ _ _ _ _ _ _) as [[e | cc] st']; done.
Qed.

(** Offline: only the cache is read. *)
Lemma metaCacheContent_offline c repoType orgRepo commit commitSha method
    (st : State Disk) :
  Online (SysConfig env) = false ->
  metaCacheContent env c repoType orgRepo commit commitSha method st
  = match disk_read (disk st)
            (metaPath env repoType orgRepo commitSha method) with
    | Some cc => (inr (Some cc), st)
    | None => (inl ProxyError,
               mkState (disk st) (history st ++ [EvErrorResponse ProxyError]))
    end.
Proof.
  intros Hoff. unfold metaCacheContent. unfold_collaborators. exec.
  rewrite Hoff. simpl. destruct (disk_read _ _); reflexivity.
Qed.

Lemma metaRespond_content method cc (st : State Disk) :
  let call := metaRespond env method (Some cc) st in
  disk call.2 = disk st /\
  exists tail,
    history call.2 = history st ++ respond_events env method cc ++ tail /\
    (tail = [] \/ tail = [EvErrorResponse ProxyError]).
Proof.
  unfold metaRespond, respond_events. unfold_collaborators. exec.
  destruct (String.eqb method _); simpl.
  - split; [done|]. exists []. auto.
  - destruct (emit_copy env _ _); simpl; (split; [done|]).
    + exists []. rewrite <- !app_assoc. auto.
    + exists [EvErrorResponse ProxyError]. rewrite <- !app_assoc. auto.
Qed.

Lemma MetaProxyCommon_resolved c repoType orgRepo commit method
    (st : State Disk) commitSha :
  resolver env (history st) repoType orgRepo commit = inr commitSha ->
  MetaProxyCommon env c repoType orgRepo commit method st
  = let st0 := mkState (disk st)
                 (history st ++ [EvResolve repoType orgRepo commit]) in
    let pick :=
      metaCacheContent env c repoType orgRepo commit commitSha method st0 in
    match pick.1 with
    | inl e => (Some e, pick.2)
    | inr cacheContent => metaRespond env method cacheContent pick.2
    end.
Proof.
  intros Hr. unfold MetaProxyCommon. unfold_collaborators. exec.
  rewrite Hr.
  destruct (metaCacheContent _ _ _ _ _ _ _ _) as [[e | cc] st']; done.
Qed.

Lemma MetaProxyCommon_unresolved c repoType orgRepo commit method
    (st : State Disk) err :
  resolver env (history st) repoType orgRepo commit = inl err ->
  let e := match err with
           | MyErr code msg => EntryUnknown code msg
           | PlainErr => ProxyError
           end in
  MetaProxyCommon env c repoType orgRepo commit method st
  = (Some e,
     mkState (disk st)
       (history st ++ [EvResolve repoType orgRepo commit; EvErrorResponse e])).
Proof.
  intros Hr. unfold MetaProxyCommon. unfold_collaborators. exec.
  rewrite Hr. destruct err; simpl; by rewrite <- app_assoc.
Qed.

Lemma MetaProxyCommon_fetch c repoType orgRepo commit method
    (st : State Disk) commitSha :
  resolver env (history st) repoType orgRepo commit = inr commitSha ->
  Online (SysConfig env) = true ->
  disk_exists (disk st) (metaPath env repoType orgRepo commitSha method) = false
  \/ disk_read (disk st) (metaPath env repoType orgRepo commitSha method)
     = None ->
  MetaProxyCommon env c repoType orgRepo commit method st
  = let st0 := mkState (disk st)
                 (history st ++ [EvResolve repoType orgRepo commit]) in
    let call :=
      requestAndSaveMeta env c repoType orgRepo commit commitSha method st0 in
    match call.1 with
    | inl e => (Some e, call.2)
    | inr cc => metaRespond env method (Some cc) call.2
    end.
Proof.
  intros Hr Hon Hmiss.
  rewrite (MetaProxyCommon_resolved _ _ _ _ _ _ _ Hr). simpl.
  rewrite metaCacheContent_miss by done. simpl.
  destruct (requestAndSaveMeta _ _ _ _ _ _ _ _) as [[e | cc] st']; done.
Qed.

(** C5. Classification of upstream failures by the metadata proxy.  A
    structured resolver error gives "entry unknown" with the resolver's
    status code (and message); any other resolver failure gives a proxy
    error.  When the origin is asked (online, the entry being absent or
    unreadable), a status other than 200 and 307 gives "entry unknown" with
    that status, and a transport failure gives "entry not found".  In each
    case that error response is all the client is sent. *)
Theorem upstream_failure_classification c repoType orgRepo commit method
    (st : State Disk) :
  let call := MetaProxyCommon env c repoType orgRepo commit method st in
  let asked := EvResolve repoType orgRepo commit in
  let fetched :=
    EvRemoteRequestMeta method repoType orgRepo commit (authorization c) in
  (forall code msg,
     resolver env (history st) repoType orgRepo commit
       = inl (MyErr code msg) ->
     call.1 = Some (EntryUnknown code msg) /\
     new_events st call.2
       = [asked; EvErrorResponse (EntryUnknown code msg)]) /\
  (resolver env (history st) repoType orgRepo commit = inl PlainErr ->
     call.1 = Some ProxyError /\
     new_events st call.2 = [asked; EvErrorResponse ProxyError]) /\
  (forall commitSha,
     resolver env (history st) repoType orgRepo commit = inr commitSha ->
     Online (SysConfig env) = true ->
     disk_exists (disk st) (metaPath env repoType orgRepo commitSha method)
       = false
     \/ disk_read (disk st) (metaPath env repoType orgRepo commitSha method)
        = None ->
     (forall resp,
        origin_meta env (history st ++ [asked]) method repoType orgRepo
          commit (authorization c) = Some resp ->
        common.RespStatusCode resp <> StatusOK ->
        common.RespStatusCode resp <> StatusTemporaryRedirect ->
        let e := EntryUnknown (common.RespStatusCode resp) "request err" in
        call.1 = Some e /\
        new_events st call.2 = [asked; fetched; EvErrorResponse e]) /\
     (origin_meta env (history st ++ [asked]) method repoType orgRepo
        commit (authorization c) = None ->
      call.1 = Some EntryNotFound /\
      new_events st call.2
        = [asked; fetched; EvErrorResponse EntryNotFound])).
Proof.
  intros call asked fetched. subst call asked fetched. split; [|split].
  - intros code msg Hr.
    rewrite (MetaProxyCommon_unresolved _ _ _ _ _ _ _ Hr). simpl.
    split; [done | by apply new_events_app].
  - intros Hr.
    rewrite (MetaProxyCommon_unresolved _ _ _ _ _ _ _ Hr). simpl.
    split; [done | by apply new_events_app].
  - intros commitSha Hr Hon Hmiss.
    rewrite (MetaProxyCommon_fetch _ _ _ _ _ _ _ Hr Hon Hmiss). cbv zeta.
    set (st0 := mkState (disk st)
                  (history st ++ [EvResolve repoType orgRepo commit])).
    split.
    + intros resp Ho H1 H2.
      rewrite (requestAndSaveMeta_rejected c repoType orgRepo commit
                 commitSha method st0 resp Ho H1 H2). simpl.
      split; [done|]. apply new_events_app. by rewrite <- app_assoc.
    + intros Ho.
      rewrite (requestAndSaveMeta_transport c repoType orgRepo commit
                 commitSha method st0 Ho). simpl.
      split; [done|]. apply new_events_app. by rewrite <- app_assoc.
Qed.

(** The content is served from the cache: online with the entry present, or
    offline; in both cases it must read back. *)
Lemma MetaProxyCommon_hit c repoType orgRepo commit method
    (st : State Disk) commitSha cc :
  resolver env (history st) repoType orgRepo commit = inr commitSha ->
  Online (SysConfig env) = true /\
    disk_exists (disk st) (metaPath env repoType orgRepo commitSha method)
      = true
  \/ Online (SysConfig env) = false ->
  disk_read (disk st) (metaPath env repoType orgRepo commitSha method)
    = Some cc ->
  MetaProxyCommon env c repoType orgRepo commit method st
  = metaRespond env method (Some cc)
      (mkState (disk st) (history st ++ [EvResolve repoType orgRepo commit])).
Proof.
  intros Hr Hmode Hread.
  rewrite (MetaProxyCommon_resolved _ _ _ _ _ _ _ Hr). cbv zeta.
  destruct Hmode as [[Hon He] | Hoff].
  - by rewrite (metaCacheContent_hit c repoType orgRepo commit commitSha
                  method (mkState (disk st) _) cc Hon He Hread).
  - rewrite metaCacheContent_offline by done. simpl. by rewrite Hread.
Qed.

Lemma MetaProxyCommon_hit_events c repoType orgRepo commit method
    (st : State Disk) commitSha cc :
  resolver env (history st) repoType orgRepo commit = inr commitSha ->
  Online (SysConfig env) = true /\
    disk_exists (disk st) (metaPath env repoType orgRepo commitSha method)
      = true
  \/ Online (SysConfig env) = false ->
  disk_read (disk st) (metaPath env repoType orgRepo commitSha method)
    = Some cc ->
  let call := MetaProxyCommon env c repoType orgRepo commit method st in
  disk call.2 = disk st /\
  exists tail,
    new_events st call.2
      = (EvResolve repoType orgRepo commit :: respond_events env method cc)
          ++ tail /\
    (tail = [] \/ tail = [EvErrorResponse ProxyError]).
Proof.
  intros Hr Hmode Hread call. subst call.
  rewrite (MetaProxyCommon_hit _ _ _ _ _ _ _ _ Hr Hmode Hread).
  destruct (metaRespond_content method cc
              (mkState (disk st)
                 (history st ++ [EvResolve repoType orgRepo commit])))
    as (Hd & tail & Hh & Ht).
  split; [done|]. exists tail. split; [|done].
  apply new_events_app. rewrite Hh. simpl. by rewrite <- app_assoc.
Qed.

(** C3. Cache-hit idempotence.  Online, the entry of the key is on disk and
    reads back as [cc]; the proxy is called twice in a row for the same
    request, and the resolver gives the same commit both times.  Then both
    calls pick the content [cc] and hand its status, headers and body to the
    client (status and headers only for HEAD; followed at most by a proxy
    error response when copying the body fails), the origin is contacted in
    neither call, and the disk is unchanged. *)
Theorem cache_hit_idempotence c repoType orgRepo commit method
    (st : State Disk) commitSha cc :
  Online (SysConfig env) = true ->
  let p := metaPath env repoType orgRepo commitSha method in
  let first := MetaProxyCommon env c repoType orgRepo commit method st in
  let second := MetaProxyCommon env c repoType orgRepo commit method first.2 in
  let served :=
    EvResolve repoType orgRepo commit :: respond_events env method cc in
  let picked (s : State Disk) :=
    (metaCacheContent env c repoType orgRepo commit commitSha method
       (mkState (disk s)
          (history s ++ [EvResolve repoType orgRepo commit]))).1 in
  disk_exists (disk st) p = true ->
  disk_read (disk st) p = Some cc ->
  resolver env (history st) repoType orgRepo commit = inr commitSha ->
  resolver env (history first.2) repoType orgRepo commit = inr commitSha ->
  picked st = inr (Some cc) /\
  picked first.2 = inr (Some cc) /\
  (exists t1 t2,
     new_events st first.2 = served ++ t1 /\
     new_events first.2 second.2 = served ++ t2 /\
     (t1 = [] \/ t1 = [EvErrorResponse ProxyError]) /\
     (t2 = [] \/ t2 = [EvErrorResponse ProxyError])) /\
  Forall (fun e => is_origin_call e = false) (new_events st first.2) /\
  Forall (fun e => is_origin_call e = false) (new_events first.2 second.2) /\
  disk second.2 = disk st.
Proof.
  intros Hon p first second served picked He Hread Hr1 Hr2.
  destruct (MetaProxyCommon_hit_events c repoType orgRepo commit method st
              commitSha cc Hr1 (or_introl (conj Hon He)) Hread)
    as (Hd1 & t1 & Hn1 & Ht1).
  fold first in Hd1, Hn1.
  assert (He' : disk_exists (disk first.2) p = true) by by rewrite Hd1.
  assert (Hread' : disk_read (disk first.2) p = Some cc) by by rewrite Hd1.
  destruct (MetaProxyCommon_hit_events c repoType orgRepo commit method
              first.2 commitSha cc Hr2 (or_introl (conj Hon He')) Hread')
    as (Hd2 & t2 & Hn2 & Ht2).
  fold second in Hd2, Hn2.
  assert (Hserved : Forall (fun e => is_origin_call e = false) served).
  { subst served. unfold respond_events.
    destruct (String.eqb _ _); repeat constructor. }
  assert (Htail : forall t, t = [] \/ t = [EvErrorResponse ProxyError] ->
                  Forall (fun e => is_origin_call e = false) t).
  { intros t [-> | ->]; repeat constructor. }
  split; [|split; [|split; [|split; [|split]]]].
  - subst picked. cbv beta.
    by rewrite (metaCacheContent_hit c repoType orgRepo commit commitSha
                  method (mkState (disk st) _) cc Hon He Hread).
  - subst picked. cbv beta.
    by rewrite (metaCacheContent_hit c repoType orgRepo commit commitSha
                  method (mkState (disk first.2) _) cc Hon He' Hread').
  - exists t1, t2. done.
  - rewrite Hn1. apply Forall_app. auto.
  - rewrite Hn2. apply Forall_app. auto.
  - by rewrite Hd2.
Qed.

(** *** Events of the HEAD path *)

Lemma requestAndSaveMeta_no_body c repoType orgRepo commit commitSha method
    (st : State Disk) :
  exists evs,
    history (requestAndSaveMeta env c repoType orgRepo commit commitSha
               method st).2 = history st ++ evs /\
    Forall (fun e => is_body_emission e = false) evs.
Proof.
  destruct (origin_meta env (history st) method repoType orgRepo commit
              (authorization c)) as [resp|] eqn:Ho.
  - destruct (decide (common.RespStatusCode resp = StatusOK \/
                      common.RespStatusCode resp = StatusTemporaryRedirect))
      as [Hs | Hs].
    + destruct (disk_mkdirs (disk st)
                  (metaPath env repoType orgRepo commit method))
        as [ok1 d1] eqn:H1.
      destruct (disk_write d1 (metaPath env repoType orgRepo commit method)
                  (common.RespStatusCode resp)
                  (ExtractHeaders env (common.RespHeaders resp))
                  (common.Body resp)) as [ok2 d2] eqn:H2.
      destruct (disk_mkdirs d2
                  (metaPath env repoType orgRepo commitSha method))
        as [ok3 d3] eqn:H3.
      destruct (disk_write d3 (metaPath env repoType orgRepo commitSha method)
                  (common.RespStatusCode resp)
                  (ExtractHeaders env (common.RespHeaders resp))
                  (common.Body resp)) as [ok4 d4] eqn:H4.
      rewrite (requestAndSaveMeta_accepted c repoType orgRepo commit commitSha
                 method st resp Ho Hs _ _ _ _ _ _ _ _ H1 H2 H3 H4).
      destruct ok1, ok2, ok3, ok4; simpl; rewrite <- ?app_assoc; simpl;
        eexists; (split; [reflexivity|]); repeat constructor.
    + rewrite (requestAndSaveMeta_rejected c repoType orgRepo commit commitSha
                 method st resp Ho) by tauto.
      simpl. eexists. split; [reflexivity|]. repeat constructor.
  - rewrite (requestAndSaveMeta_transport c repoType orgRepo commit commitSha
               method st Ho).
    simpl. eexists. split; [reflexivity|]. repeat constructor.
Qed.

Lemma metaCacheContent_no_body c repoType orgRepo commit commitSha method
    (st : State Disk) :
  exists evs,
    history (metaCacheContent env c repoType orgRepo commit commitSha
               method st).2 = history st ++ evs /\
    Forall (fun e => is_body_emission e = false) evs.
Proof.
  pose proof (requestAndSaveMeta_no_body c repoType orgRepo commit commitSha
                method st) as Hreq.
  unfold metaCacheContent. unfold_collaborators. exec.
  destruct (Online _); simpl.
  - destruct (disk_exists _ _); simpl;
      [destruct (disk_read _ _); simpl|];
      try (destruct (requestAndSaveMeta _ _ _ _ _ _ _ _) as [[e | cc] st'];
           exact Hreq).
    exists []. by rewrite app_nil_r.
  - destruct (disk_read _ _); simpl.
    + exists []. by rewrite app_nil_r.
    + eexists. split; [reflexivity|]. repeat constructor.
Qed.

(** C6. HEAD short-circuit.  When the method is the HEAD request type, no
    call of the metadata proxy hands body bytes to the client, whatever path
    it takes.  On the cache-hit path (online with the entry present, or
    offline) and on the fetch path (origin answer accepted and saved) the
    client is sent the status code and the headers of the content, and
    nothing else. *)
Theorem head_short_circuit c repoType orgRepo commit method (st : State Disk) :
  method = RequestTypeHead env ->
  let call := MetaProxyCommon env c repoType orgRepo commit method st in
  let asked := EvResolve repoType orgRepo commit in
  let fetched :=
    EvRemoteRequestMeta method repoType orgRepo commit (authorization c) in
  Forall (fun e => is_body_emission e = false) (new_events st call.2) /\
  (forall commitSha cc,
     resolver env (history st) repoType orgRepo commit = inr commitSha ->
     Online (SysConfig env) = true /\
       disk_exists (disk st) (metaPath env repoType orgRepo commitSha method)
         = true
     \/ Online (SysConfig env) = false ->
     disk_read (disk st) (metaPath env repoType orgRepo commitSha method)
       = Some cc ->
     new_events st call.2
       = [asked; EvResponseHeaders (common.StatusCode cc) (common.Headers cc)])
  /\
  (forall commitSha resp d1 d2 d3 d4,
     resolver env (history st) repoType orgRepo commit = inr commitSha ->
     Online (SysConfig env) = true ->
     disk_exists (disk st) (metaPath env repoType orgRepo commitSha method)
       = false
     \/ disk_read (disk st) (metaPath env repoType orgRepo commitSha method)
        = None ->
     origin_meta env (history st ++ [asked]) method repoType orgRepo commit
       (authorization c) = Some resp ->
     common.RespStatusCode resp = StatusOK \/
     common.RespStatusCode resp = StatusTemporaryRedirect ->
     let pr := metaPath env repoType orgRepo commit method in
     let pc := metaPath env repoType orgRepo commitSha method in
     let sc := common.RespStatusCode resp in
     let hs := ExtractHeaders env (common.RespHeaders resp) in
     let b := common.Body resp in
     disk_mkdirs (disk st) pr = (true, d1) ->
     disk_write d1 pr sc hs b = (true, d2) ->
     disk_mkdirs d2 pc = (true, d3) ->
     disk_write d3 pc sc hs b = (true, d4) ->
     new_events st call.2 = [asked; fetched; EvResponseHeaders sc hs]).
Proof.
  intros Hm call asked fetched. subst call asked fetched.
  split; [|split].
  - destruct (resolver env (history st) repoType orgRepo commit)
      as [err | commitSha] eqn:Hr.
    + rewrite (MetaProxyCommon_unresolved _ _ _ _ _ _ _ Hr). simpl.
      erewrite new_events_app by (simpl; reflexivity).
      destruct err; repeat constructor.
    + rewrite (MetaProxyCommon_resolved _ _ _ _ _ _ _ Hr). cbv zeta.
      set (st0 := mkState (disk st)
                    (history st ++ [EvResolve repoType orgRepo commit])).
      destruct (metaCacheContent_no_body c repoType orgRepo commit commitSha
                  method st0) as (evs & Hh & Hev).
      destruct (metaCacheContent _ _ _ _ _ _ _ _) as [[e | cacheContent] st1].
      * simpl in *. erewrite new_events_app
          by (rewrite Hh; simpl; rewrite <- app_assoc; reflexivity).
        constructor; done.
      * simpl in *. unfold metaRespond. unfold_collaborators. exec.
        rewrite Hm, String.eqb_refl.
        destruct cacheContent as [cc|]; simpl;
          (erewrite new_events_app
             by (rewrite Hh; simpl; rewrite <- !app_assoc; reflexivity));
          constructor; try done; apply Forall_app; split; try done;
          repeat constructor.
  - intros commitSha cc Hr Hmode Hread.
    rewrite (MetaProxyCommon_hit _ _ _ _ _ _ _ _ Hr Hmode Hread).
    unfold metaRespond. unfold_collaborators. exec.
    rewrite Hm, String.eqb_refl. simpl.
    apply new_events_app. simpl. by rewrite <- app_assoc.
  - intros commitSha resp d1 d2 d3 d4 Hr Hon Hmiss Ho Hs pr pc sc hs b
           H1 H2 H3 H4.
    rewrite (MetaProxyCommon_fetch _ _ _ _ _ _ _ Hr Hon Hmiss). cbv zeta.
    set (st0 := mkState (disk st)
                  (history st ++ [EvResolve repoType orgRepo commit])).
    rewrite (requestAndSaveMeta_accepted c repoType orgRepo commit commitSha
               method st0 resp Ho Hs _ _ _ _ _ _ _ _ H1 H2 H3 H4).
    simpl. unfold metaRespond. unfold_collaborators. exec.
    rewrite Hm, String.eqb_refl. simpl.
    apply new_events_app. simpl. by rewrite <- !app_assoc.
Qed.

(** ** The refs proxy *)

(** The request passes the checks of [RepoRefs] and the directory of the
    cache path can be made. *)
Lemma RepoRefs_checked c repoType org repo (st : State Disk) d1 :
  repoType ∈ RepoTypesMapping env ->
  ~ (org = "" /\ repo = "") ->
  disk_mkdirs (disk st) (refsPath env repoType (GetOrgRepo env org repo))
    = (true, d1) ->
  RepoRefs env c repoType org repo st
  = let orgRepo := GetOrgRepo env org repo in
    let pick :=
      refsCacheContent env repoType orgRepo (authorization c)
        (mkState d1 (history st)) in
    match pick.1 with
    | inl e => (Some e, pick.2)
    | inr cacheContent =>
      ResponseStream env orgRepo (common.Headers cacheContent)
        [common.OriginContent cacheContent] pick.2
    end.
Proof.
  intros Hty Hnames Hmk. unfold RepoRefs.
  rewrite bool_decide_eq_true_2 by done. simpl.
  assert (String.eqb org "" && String.eqb repo "" = false) as ->.
  { destruct (String.eqb_spec org ""), (String.eqb_spec repo ""); tauto. }
  unfold_collaborators. exec. rewrite Hmk. simpl.
  destruct (refsCacheContent _ _ _ _ _) as [[e | cc] st']; done.
Qed.

(** Offline with the cache file present: only the cache is read. *)
Lemma refsCacheContent_cached repoType orgRepo auth (st : State Disk) :
  Online (SysConfig env) = false ->
  disk_exists (disk st) (refsPath env repoType orgRepo) = true ->
  refsCacheContent env repoType orgRepo auth st
  = match disk_read (disk st) (refsPath env repoType orgRepo) with
    | Some cc => (inr cc, st)
    | None => (inl ProxyError,
               mkState (disk st) (history st ++ [EvErrorResponse ProxyError]))
    end.
Proof.
  intros Hoff He. unfold refsCacheContent. unfold_collaborators. exec.
  rewrite Hoff. simpl. rewrite He.
  destruct (disk_read _ _); reflexivity.
Qed.

(** Online, or offline without a cache file: the origin is asked, and its
    answer is written to the cache whatever its status. *)
Lemma refsCacheContent_fetch repoType orgRepo auth (st : State Disk) :
  Online (SysConfig env) = true \/
  disk_exists (disk st) (refsPath env repoType orgRepo) = false ->
  refsCacheContent env repoType orgRepo auth st
  = let h := history st ++ [EvRepoRefs repoType orgRepo auth] in
    match origin_refs env (history st) repoType orgRepo auth with
    | None =>
      (inl ProxyError,
       mkState (disk st) (h ++ [EvErrorResponse ProxyError]))
    | Some resp =>
      let hs := ExtractHeaders env (common.RespHeaders resp) in
      let w := disk_write (disk st) (refsPath env repoType orgRepo)
                 (common.RespStatusCode resp) hs (common.Body resp) in
      if w.1 then
        (inr (common.mkCacheContent 0 hs (common.Body resp)), mkState w.2 h)
      else
        (inl ProxyError, mkState w.2 (h ++ [EvErrorResponse ProxyError]))
    end.
Proof.
  intros Hmode. unfold refsCacheContent. unfold_collaborators. exec.
  destruct (Online (SysConfig env)) eqn:Hon; simpl.
  - destruct (origin_refs _ _ _ _ _) as [resp|]; simpl; [|done].
    destruct (disk_write _ _ _ _ _) as [ok d2]. simpl.
    destruct ok; done.
  - destruct Hmode as [? | ->]; [done|].
    destruct (origin_refs _ _ _ _ _) as [resp|]; simpl; [|done].
    destruct (disk_write _ _ _ _ _) as [ok d2]. simpl.
    destruct ok; done.
Qed.

(** C4. Refetch policy of the refs proxy.  The request has passed the checks
    and the directory of the cache path exists.  Online, or offline without
    a cache file, the origin is asked first thing, whether or not a cache
    entry exists; its answer is written to the one cache path of
    (repoType, orgRepo) and, once written, streamed to the client and read
    back from the cache.  Offline with the cache file present, the origin is
    not asked: the cached content is what is streamed. *)
Theorem refs_refetch_policy c repoType org repo (st : State Disk) d1 :
  let orgRepo := GetOrgRepo env org repo in
  let p := refsPath env repoType orgRepo in
  let call := RepoRefs env c repoType org repo st in
  let fetched := EvRepoRefs repoType orgRepo (authorization c) in
  repoType ∈ RepoTypesMapping env ->
  ~ (org = "" /\ repo = "") ->
  disk_mkdirs (disk st) p = (true, d1) ->
  (Online (SysConfig env) = true \/ disk_exists d1 p = false ->
     (exists rest, new_events st call.2 = fetched :: rest) /\
     (forall resp ok d2,
        origin_refs env (history st) repoType orgRepo (authorization c)
          = Some resp ->
        let sc := common.RespStatusCode resp in
        let hs := ExtractHeaders env (common.RespHeaders resp) in
        let b := common.Body resp in
        disk_write d1 p sc hs b = (ok, d2) ->
        disk call.2 = d2 /\
        (ok = true ->
           disk_read d2 p = Some (common.mkCacheContent sc hs b) /\
           new_events st call.2
             = [fetched; EvResponseStream orgRepo hs [b]]))) /\
  (Online (SysConfig env) = false -> disk_exists d1 p = true ->
     Forall (fun e => is_origin_call e = false) (new_events st call.2) /\
     disk call.2 = d1 /\
     (forall cc, disk_read d1 p = Some cc ->
        new_events st call.2
          = [EvResponseStream orgRepo (common.Headers cc)
               [common.OriginContent cc]])).
Proof.
  intros orgRepo p call fetched Hty Hnames Hmk. subst call.
  rewrite (RepoRefs_checked c repoType org repo st d1 Hty Hnames Hmk).
  cbv zeta. fold orgRepo p. split.
  - intros Hmode.
    rewrite (refsCacheContent_fetch repoType orgRepo (authorization c)
               (mkState d1 (history st)) Hmode).
    cbv zeta. simpl disk. simpl history. fold p fetched. split.
    + destruct (origin_refs _ _ _ _ _) as [resp|]; simpl.
      * destruct (disk_write _ _ _ _ _) as [[] d2]; simpl;
          unfold_collaborators; exec; eexists;
          apply new_events_app; simpl; rewrite <- ?app_assoc; reflexivity.
      * eexists. apply new_events_app. simpl.
        rewrite <- ?app_assoc. reflexivity.
    + intros resp ok d2 Ho Hw. rewrite Ho, Hw. simpl. destruct ok; simpl.
      * unfold_collaborators. exec. split; [done|]. intros _. split.
        -- exact (proj2 (write_read _ _ _ _ _ _ Hw)).
        -- apply new_events_app. simpl. by rewrite <- app_assoc.
      * split; [done|]. discriminate.
  - intros Hoff He.
    rewrite (refsCacheContent_cached repoType orgRepo (authorization c)
               (mkState d1 (history st)) Hoff He).
    simpl disk. fold p.
    destruct (disk_read d1 p) as [cc|]; simpl.
    + unfold_collaborators. exec.
      erewrite new_events_app by (simpl; reflexivity).
      split; [repeat constructor|]. split; [done|].
      by intros cc' [= <-].
    + erewrite new_events_app by (simpl; reflexivity).
      split; [repeat constructor|]. split; [done|]. discriminate.
Qed.

(** C10. No status validation in the refs proxy.  On the fetch path, whatever
    the status code of an origin answer that arrived, the answer is written
    to the cache with that status code; once written, it is streamed to the
    client, and what the emitter says is the result of the call.  The content
    built for streaming holds the headers and the body, and zero (no value)
    as its status code. *)
Theorem refs_no_status_validation c repoType org repo (st : State Disk)
    d1 resp ok d2 :
  let orgRepo := GetOrgRepo env org repo in
  let p := refsPath env repoType orgRepo in
  let call := RepoRefs env c repoType org repo st in
  let fetched := EvRepoRefs repoType orgRepo (authorization c) in
  let sc := common.RespStatusCode resp in
  let hs := ExtractHeaders env (common.RespHeaders resp) in
  let b := common.Body resp in
  repoType ∈ RepoTypesMapping env ->
  ~ (org = "" /\ repo = "") ->
  disk_mkdirs (disk st) p = (true, d1) ->
  Online (SysConfig env) = true \/ disk_exists d1 p = false ->
  origin_refs env (history st) repoType orgRepo (authorization c)
    = Some resp ->
  disk_write d1 p sc hs b = (ok, d2) ->
  disk call.2 = d2 /\
  (ok = true ->
     disk_read d2 p = Some (common.mkCacheContent sc hs b) /\
     (refsCacheContent env repoType orgRepo (authorization c)
        (mkState d1 (history st))).1
       = inr (common.mkCacheContent 0 hs b) /\
     call.1 = emit_stream env (history st ++ [fetched]) orgRepo hs [b] /\
     new_events st call.2 = [fetched; EvResponseStream orgRepo hs [b]]).
Proof.
  intros orgRepo p call fetched sc hs b Hty Hnames Hmk Hmode Ho Hw.
  subst call.
  rewrite (RepoRefs_checked c repoType org repo st d1 Hty Hnames Hmk).
  cbv zeta. fold orgRepo p.
  rewrite (refsCacheContent_fetch repoType orgRepo (authorization c)
             (mkState d1 (history st)) Hmode).
  cbv zeta. simpl disk. simpl history. fold p fetched.
  rewrite Ho. fold sc hs b. rewrite Hw. simpl.
  destruct ok; simpl; (split; [done|]); [|discriminate].
  intros _. unfold_collaborators. exec.
  split; [exact (proj2 (write_read _ _ _ _ _ _ Hw))|].
  split; [done|]. split; [done|].
  apply new_events_app. simpl. by rewrite <- app_assoc.
Qed.

(** C2 (amended). Offline without cache.  In offline mode, a metadata proxy
    request whose resolved key has no cache entry on disk (or an unreadable
    one) ends with a proxy error and the origin is not asked.  The refs
    proxy differs: offline with a cache file that cannot be read it ends
    with a proxy error without asking the origin, but offline without a
    cache file it does ask the origin. *)
Theorem offline_without_cache c (st : State Disk) :
  Online (SysConfig env) = false ->
  (forall repoType orgRepo commit method commitSha,
     let call := MetaProxyCommon env c repoType orgRepo commit method st in
     let p := metaPath env repoType orgRepo commitSha method in
     resolver env (history st) repoType orgRepo commit = inr commitSha ->
     disk_exists (disk st) p = false \/ disk_read (disk st) p = None ->
     call.1 = Some ProxyError /\
     Forall (fun e => is_origin_call e = false) (new_events st call.2) /\
     new_events st call.2
       = [EvResolve repoType orgRepo commit; EvErrorResponse ProxyError]) /\
  (forall repoType org repo d1,
     let orgRepo := GetOrgRepo env org repo in
     let p := refsPath env repoType orgRepo in
     let call := RepoRefs env c repoType org repo st in
     repoType ∈ RepoTypesMapping env ->
     ~ (org = "" /\ repo = "") ->
     disk_mkdirs (disk st) p = (true, d1) ->
     (disk_exists d1 p = true -> disk_read d1 p = None ->
        call.1 = Some ProxyError /\
        new_events st call.2 = [EvErrorResponse ProxyError]) /\
     (disk_exists d1 p = false ->
        exists rest,
          new_events st call.2
            = EvRepoRefs repoType orgRepo (authorization c) :: rest)).
Proof.
  intros Hoff. split.
  - intros repoType orgRepo commit method commitSha call p Hr Hmiss.
    assert (Hnone : disk_read (disk st) p = None).
    { destruct Hmiss as [Hx | Hx]; [by apply read_missing | done]. }
    subst call.
    rewrite (MetaProxyCommon_resolved _ _ _ _ _ _ _ Hr). cbv zeta.
    rewrite metaCacheContent_offline by done. simpl. fold p.
    rewrite Hnone. simpl.
    erewrite new_events_app by (simpl; rewrite <- app_assoc; reflexivity).
    split; [done|]. split; [repeat constructor | done].
  - intros repoType org repo d1 orgRepo p call Hty Hnames Hmk. subst call.
    rewrite (RepoRefs_checked c repoType org repo st d1 Hty Hnames Hmk).
    cbv zeta. fold orgRepo p. split.
    + intros He Hnone.
      rewrite (refsCacheContent_cached repoType orgRepo (authorization c)
                 (mkState d1 (history st)) Hoff He).
      simpl disk. fold p. rewrite Hnone. simpl.
      split; [done|]. by apply new_events_app.
    + intros He.
      rewrite (refsCacheContent_fetch repoType orgRepo (authorization c)
                 (mkState d1 (history st)) (or_intror He)).
      cbv zeta. simpl disk. simpl history.
      destruct (origin_refs _ _ _ _ _) as [resp|]; simpl.
      * destruct (disk_write _ _ _ _ _) as [[] d2]; simpl;
          unfold_collaborators; exec; eexists;
          apply new_events_app; simpl; rewrite <- ?app_assoc; reflexivity.
      * eexists. apply new_events_app. simpl.
        rewrite <- ?app_assoc. reflexivity.
Qed.

End Proxy.

(** ** The directory listing assembler *)

(** *** Byte-wise order on names *)

Lemma string_leb_trans (a b c : string) :
  String.leb a b = true -> String.leb b c = true -> String.leb a c = true.
Proof.
  unfold String.leb. revert b c.
  induction a as [|x a IH]; intros [|y b] [|z c]; simpl; try done.
  unfold Ascii.compare.
  destruct (N.compare_spec (N_of_ascii x) (N_of_ascii y)) as [Exy | Lxy | Gxy],
           (N.compare_spec (N_of_ascii y) (N_of_ascii z)) as [Eyz | Lyz | Gyz],
           (N.compare_spec (N_of_ascii x) (N_of_ascii z)) as [Exz | Lxz | Gxz];
    try done; try lia.
  apply IH.
Qed.

Lemma string_ltb_leb (a b : string) :
  String.ltb a b = false <-> String.leb b a = true.
Proof.
  unfold String.ltb, String.leb. rewrite (String.compare_antisym a b).
  destruct (String.compare b a); simpl; split; done.
Qed.

(** *** The order of [less] *)

Lemma node_le_spec (a b : FileDescribe) :
  node_le a b <->
  (IsDir b = true -> IsDir a = true) /\
  (IsDir a = IsDir b -> String.leb (Name a) (Name b) = true).
Proof.
  unfold node_le, less.
  destruct (IsDir a), (IsDir b); simpl; rewrite ?string_ltb_leb;
    intuition congruence.
Qed.

Lemma node_le_trans (a b c : FileDescribe) :
  node_le a b -> node_le b c -> node_le a c.
Proof.
  rewrite !node_le_spec. intros [H1 H2] [H3 H4]. split; [tauto|].
  intros Hac.
  destruct (IsDir a) eqn:Ea, (IsDir b) eqn:Eb, (IsDir c) eqn:Ec;
    try done; try (by eapply string_leb_trans; eauto);
    try (by specialize (H1 eq_refl)); by specialize (H3 eq_refl).
Qed.

Lemma less_node_le (a b : FileDescribe) : less a b = true -> node_le a b.
Proof.
  intros Hl. apply node_le_spec. unfold less in Hl.
  destruct (IsDir a), (IsDir b); simpl in Hl; try done;
    (split; [done | intros _]);
    unfold String.ltb in Hl; unfold String.leb;
    destruct (String.compare (Name a) (Name b)); done.
Qed.

(** *** [sortNodes] sorts *)

Lemma sift_perm (x : FileDescribe) (rprefix : list FileDescribe) :
  sift x rprefix ≡ₚ x :: rprefix.
Proof.
  induction rprefix as [|y r IH]; simpl; [done|].
  destruct (less x y); [|done].
  rewrite IH. apply Permutation_swap.
Qed.

Lemma sift_sorted (x : FileDescribe) (rprefix : list FileDescribe) :
  Sorted (flip node_le) rprefix -> Sorted (flip node_le) (sift x rprefix).
Proof.
  induction rprefix as [|y r IH]; simpl; intros Hs.
  - repeat constructor.
  - destruct (less x y) eqn:Hxy.
    + apply Sorted_inv in Hs as [Hr Hhd]. constructor; [by apply IH|].
      destruct r as [|z r]; simpl.
      * constructor. by apply less_node_le.
      * destruct (less x z); constructor.
        -- by apply HdRel_inv in Hhd.
        -- by apply less_node_le.
    + constructor; [done|]. constructor. exact Hxy.
Qed.

Lemma foldl_sift_perm (nodes acc : list FileDescribe) :
  foldl (fun rprefix x => sift x rprefix) acc nodes ≡ₚ acc ++ nodes.
Proof.
  revert acc. induction nodes as [|x nodes IH]; intros acc; simpl.
  - by rewrite app_nil_r.
  - rewrite IH, sift_perm. simpl. apply Permutation_middle.
Qed.

Lemma foldl_sift_sorted (nodes acc : list FileDescribe) :
  Sorted (flip node_le) acc ->
  Sorted (flip node_le) (foldl (fun rprefix x => sift x rprefix) acc nodes).
Proof.
  revert acc. induction nodes as [|x nodes IH]; intros acc Hs; simpl; [done|].
  by apply IH, sift_sorted.
Qed.

Lemma sortNodes_perm (nodes : list FileDescribe) : sortNodes nodes ≡ₚ nodes.
Proof.
  unfold sortNodes. rewrite <- Permutation_rev. apply foldl_sift_perm.
Qed.

Lemma StronglySorted_flip_rev {A} (R : relation A) (l : list A) :
  StronglySorted (flip R) l -> StronglySorted R (rev l).
Proof.
  induction 1 as [|x l Hs IH Hall]; simpl; [constructor|].
  apply StronglySorted_app. split; [|split]; [|done|repeat constructor].
  intros a b Ha Hb. apply list_elem_of_singleton in Hb as ->.
  rewrite Forall_forall in Hall. apply Hall.
  apply list_elem_of_In, in_rev. by apply list_elem_of_In.
Qed.

Lemma sortNodes_sorted (nodes : list FileDescribe) :
  StronglySorted node_le (sortNodes nodes).
Proof.
  unfold sortNodes. apply StronglySorted_flip_rev.
  apply Sorted_StronglySorted.
  - intros a b c Hab Hbc. unfold flip in *. by eapply node_le_trans.
  - apply foldl_sift_sorted. constructor.
Qed.

(** The sorted listing does not depend on the sorting algorithm when the
    names are pairwise distinct, as the entries of a directory are: every
    arrangement of the nodes that is sorted for [less] is the one that
    [sortNodes] gives. *)
Lemma names_inj (nodes : list FileDescribe) (a b : FileDescribe) :
  NoDup (Name <$> nodes) -> a ∈ nodes -> b ∈ nodes -> Name a = Name b -> a = b.
Proof.
  induction nodes as [|x nodes IH]; intros Hnd Ha Hb Hab; [by inversion Ha|].
  rewrite fmap_cons in Hnd. apply NoDup_cons in Hnd as [Hx Hnd].
  apply elem_of_cons in Ha as [-> | Ha];
    apply elem_of_cons in Hb as [-> | Hb]; try done.
  - exfalso. apply Hx. rewrite Hab. by apply list_elem_of_fmap_2.
  - exfalso. apply Hx. rewrite <- Hab. by apply list_elem_of_fmap_2.
  - by apply IH.
Qed.

Lemma sortNodes_canonical (nodes out : list FileDescribe) :
  NoDup (Name <$> nodes) ->
  out ≡ₚ nodes -> StronglySorted node_le out -> out = sortNodes nodes.
Proof.
  intros Hnd Hperm Hsorted.
  apply (StronglySorted_unique_strong node_le); [|done|..].
  - intros a b Ha Hb Hab Hba. rewrite Hperm in Ha. rewrite sortNodes_perm in Hb.
    apply (names_inj nodes); [done..|].
    apply node_le_spec in Hab as [Hd1 Hn1].
    apply node_le_spec in Hba as [Hd2 Hn2].
    assert (IsDir a = IsDir b) as Hd
      by (destruct (IsDir a), (IsDir b); intuition congruence).
    apply String.leb_antisym; auto.
  - apply sortNodes_sorted.
  - by rewrite sortNodes_perm.
Qed.

Lemma StronglySorted_lookup {A} (R : relation A) (l : list A) i j a b :
  StronglySorted R l -> (i < j)%nat ->
  l !! i = Some a -> l !! j = Some b -> R a b.
Proof.
  intros Hs. revert i j. induction Hs as [|x l Hs IH Hall]; intros i j Hij Hi Hj.
  - done.
  - destruct j as [|j]; [lia|]. simpl in Hj. destruct i as [|i]; simpl in Hi.
    + injection Hi as <-. rewrite Forall_forall in Hall.
      apply Hall. by eapply list_elem_of_lookup_2.
    + apply (IH i j); [lia|done..].
Qed.

(** *** The loop over the directory entries *)

Section Listing.

Context {Disk : Type} `{CacheStore Disk}.
Variable env : Env.

Lemma relativePath_spec (filePath fileName : string) :
  relativePath filePath fileName
  = if decide (filePath = "") then fileName else filePath +:+ "/" +:+ fileName.
Proof.
  unfold relativePath.
  destruct (String.eqb_spec filePath ""); case_decide; done.
Qed.

Lemma findSize_first (fileName : string) (infos : list common.PathsInfo)
    (size : Z) i info :
  infos !! i = Some info ->
  common.Path info = fileName ->
  (forall j other, (j < i)%nat -> infos !! j = Some other ->
                   common.Path other <> fileName) ->
  findSize fileName infos size = common.Size info.
Proof.
  revert i. induction infos as [|item rest IH]; intros i Hi Hp Hfirst; [done|].
  simpl. destruct i as [|i]; simpl in Hi.
  - injection Hi as ->. rewrite Hp, String.eqb_refl. done.
  - destruct (String.eqb_spec (common.Path item) fileName) as [Heq | Hne].
    + exfalso. apply (Hfirst 0%nat item); [lia | done | done].
    + apply (IH i); [done | done |].
      intros j other Hj Ho. apply (Hfirst (S j) other); [lia | done].
Qed.

Lemma analysisFile_fails (d : Disk) dir filePath item :
  match analysisFile env d dir filePath item with
  | inl _ => entry_fails env d dir item = true
  | inr fileDescribe =>
    entry_fails env d dir item = false /\ Name fileDescribe = item
  end.
Proof.
  unfold analysisFile, entry_fails.
  destruct (disk_exists _ _); simpl; [|done].
  destruct (disk_read _ _) as [cc|]; [|done].
  destruct (Unmarshal _ _); done.
Qed.

Lemma describeEntry_app (d : Disk) repoType orgRepo commit filePath acc item :
  describeEntry env d repoType orgRepo commit filePath acc item
  = acc ++ describeEntry env d repoType orgRepo commit filePath [] item.
Proof.
  unfold describeEntry.
  destruct (analysisFile _ _ _ _ _); simpl; [by rewrite app_nil_r | done].
Qed.

Lemma describeEntry_described (d : Disk) repoType orgRepo commit filePath item :
  describeEntry env d repoType orgRepo commit filePath [] item
  = option_list (describedEntry env d repoType orgRepo commit filePath item).
Proof.
  unfold describedEntry, describeEntry.
  destruct (analysisFile _ _ _ _ _); done.
Qed.

Lemma foldl_describeEntry (d : Disk) repoType orgRepo commit filePath
    (files : list string) acc :
  foldl (describeEntry env d repoType orgRepo commit filePath) acc files
  = acc ++ omap (describedEntry env d repoType orgRepo commit filePath) files.
Proof.
  revert acc. induction files as [|item files IH]; intros acc; simpl.
  - by rewrite app_nil_r.
  - rewrite IH, describeEntry_app, describeEntry_described.
    destruct (describedEntry _ _ _ _ _ _ _); simpl;
      by rewrite <- ?app_assoc, ?app_nil_r.
Qed.

Lemma describedEntry_names (d : Disk) repoType orgRepo commit filePath
    (files : list string) :
  Name <$> omap (describedEntry env d repoType orgRepo commit filePath) files
  = filter (fun item =>
              entry_fails env d (pathsInfoDir env repoType orgRepo commit
                                   filePath) item = false) files.
Proof.
  induction files as [|item files IH]; [done|].
  rewrite filter_cons. simpl.
  pose proof (analysisFile_fails d
                (pathsInfoDir env repoType orgRepo commit filePath)
                filePath item) as Hf.
  unfold describedEntry, describeEntry.
  destruct (analysisFile _ _ _ _ _) as [e | fd]; simpl.
  - rewrite decide_False by (rewrite Hf; done). done.
  - destruct Hf as [Hf Hn]. rewrite decide_True by done.
    rewrite <- IH. destruct (IsDir fd); simpl; by rewrite Hn.
Qed.

Lemma RepositoryFiles_listed (d : Disk) repoType orgRepo commit filePath
    (files : list string) :
  disk_exists d (pathsInfoDir env repoType orgRepo commit filePath) = true ->
  disk_readdir d (pathsInfoDir env repoType orgRepo commit filePath)
    = Some files ->
  RepositoryFiles env d repoType orgRepo commit filePath
  = inr (sortNodes
           (omap (describedEntry env d repoType orgRepo commit filePath)
                 files)).
Proof.
  intros He Hd. unfold RepositoryFiles. rewrite He, Hd. simpl.
  by rewrite foldl_describeEntry.
Qed.

(** C7. Listing sort order.  A listing returned by [RepositoryFiles] holds
    exactly the nodes that the loop over the enumerated entries assembled,
    rearranged: none is lost, added or repeated.  In it, an entry that comes
    earlier than another one is a directory whenever the later one is
    (directories precede files), and when both are directories or both are
    files its name is the smaller one, or the same, in the byte-wise order
    of strings. *)
Theorem listing_sort_order (d : Disk) repoType orgRepo commit filePath out :
  RepositoryFiles env d repoType orgRepo commit filePath = inr out ->
  (exists files,
     disk_readdir d (pathsInfoDir env repoType orgRepo commit filePath)
       = Some files /\
     out ≡ₚ foldl (describeEntry env d repoType orgRepo commit filePath)
              [] files) /\
  forall i j a b,
    (i < j)%nat -> out !! i = Some a -> out !! j = Some b ->
    (IsDir b = true -> IsDir a = true) /\
    (IsDir a = IsDir b -> String.leb (Name a) (Name b) = true).
Proof.
  unfold RepositoryFiles.
  destruct (disk_exists _ _); simpl; [|done].
  destruct (disk_readdir _ _) as [files|]; [|done].
  intros [= <-]. split.
  - exists files. split; [done | apply sortNodes_perm].
  - intros i j a b Hij Hi Hj.
    apply node_le_spec.
    exact (StronglySorted_lookup node_le _ i j a b
             (sortNodes_sorted _) Hij Hi Hj).
Qed.

(** C8. Listing size extraction.  A directory entry has a paths-info file
    that reads and decodes, and [info] is the first decoded element whose
    path is subPath/entryName (entryName when subPath is empty).  Then the
    listing succeeds and holds, for this entry, a [FileDescribe] that is not
    a directory, has the size of [info], and whose link is
    publicDomain/repoType/orgRepo/resolve/commit followed by "/" and that
    same relative path. *)
Theorem listing_size_extraction (d : Disk) repoType orgRepo commit filePath
    (files : list string) item cc infos i info :
  let dir := pathsInfoDir env repoType orgRepo commit filePath in
  let pathInfoPath := dir +:+ "/" +:+ item +:+ "/paths-info_post.json" in
  let rel :=
    if decide (filePath = "") then item else filePath +:+ "/" +:+ item in
  disk_exists d dir = true ->
  disk_readdir d dir = Some files ->
  item ∈ files ->
  disk_exists d pathInfoPath = true ->
  disk_read d pathInfoPath = Some cc ->
  Unmarshal env (common.OriginContent cc) = Some infos ->
  infos !! i = Some info ->
  common.Path info = rel ->
  (forall j other, (j < i)%nat -> infos !! j = Some other ->
                   common.Path other <> rel) ->
  exists out,
    RepositoryFiles env d repoType orgRepo commit filePath = inr out /\
    mkFileDescribe item (common.Size info) false
      ((PublicDomain (SysConfig env) +:+ "/" +:+ repoType +:+ "/" +:+ orgRepo
          +:+ "/resolve/" +:+ commit) +:+ "/" +:+ rel) ∈ out.
Proof.
  intros dir pathInfoPath rel He Hd Hin Hpe Hpr Hu Hi Hp Hfirst.
  eexists. split; [exact (RepositoryFiles_listed _ _ _ _ _ _ He Hd)|].
  rewrite sortNodes_perm. apply list_elem_of_omap. exists item.
  split; [done|].
  unfold describedEntry, describeEntry, analysisFile.
  fold dir pathInfoPath. rewrite Hpe, Hpr, Hu. simpl.
  rewrite relativePath_spec. fold rel.
  by rewrite (findSize_first rel infos 0 i info Hi Hp Hfirst).
Qed.

(** C9. Malformed listing entry tolerance.  When the listing root exists and
    can be enumerated, [RepositoryFiles] succeeds, and the names in its
    result are, up to order, the enumerated entries without those whose
    paths-info file fails to read or to decode: such an entry is dropped and
    every other entry is returned. *)
Theorem malformed_entry_tolerance (d : Disk) repoType orgRepo commit filePath
    (files : list string) :
  let dir := pathsInfoDir env repoType orgRepo commit filePath in
  disk_exists d dir = true ->
  disk_readdir d dir = Some files ->
  exists out,
    RepositoryFiles env d repoType orgRepo commit filePath = inr out /\
    Name <$> out
      ≡ₚ filter (fun item => entry_fails env d dir item = false) files.
Proof.
  intros dir He Hd.
  eexists. split; [exact (RepositoryFiles_listed _ _ _ _ _ _ He Hd)|].
  rewrite sortNodes_perm. by rewrite describedEntry_names.
Qed.

End Listing.

(** ** The theorems at work on the in-memory store *)

(** A fetch saved under both keys; then a fetch whose second write fails. *)
Lemma dual_write_consistency_witness :
  let e := demo_env true (inr "sha1") (Some (demo_response 200)) true in
  let call :=
    run (requestAndSaveMeta e demo_ctx "models" "org/repo" "main" "sha1" "get") in
  ((call empty_disk).1 = inr (demo_content 200) /\
   disk_read (disk (call empty_disk).2) main_meta_path
     = Some (demo_content 200) /\
   disk_read (disk (call empty_disk).2) sha1_meta_path
     = Some (demo_content 200)) /\
  ((call disk_sha1_readonly).1 = inl ProxyError /\
   disk_read (disk (call disk_sha1_readonly).2) main_meta_path
     = Some (demo_content 200)).
Proof.
  intros e call. split.
  - edestruct (dual_write_consistency e demo_ctx "models" "org/repo" "main"
                 "sha1" "get" (mkState empty_disk []) (demo_response 200)
                 eq_refl (or_introl eq_refl))
      as (Hs & _); [reflexivity .. |].
    destruct (Hs eq_refl eq_refl eq_refl eq_refl)
      as (H1 & H2 & _ & _ & H5 & H6).
    unfold call, run. rewrite H2. auto.
  - edestruct (dual_write_consistency e demo_ctx "models" "org/repo" "main"
                 "sha1" "get" (mkState disk_sha1_readonly [])
                 (demo_response 200) eq_refl (or_introl eq_refl))
      as (_ & _ & _ & _ & Hf); [reflexivity .. |].
    destruct (Hf eq_refl eq_refl eq_refl eq_refl) as ((H1 & _) & H2 & H3).
    unfold call, run. rewrite H2. split; [exact H1|].
    apply H3. discriminate.
Defined.

(** The origin is unreachable, and both calls are served from the cache. *)
Lemma cache_hit_idempotence_witness :
  let e := demo_env true (inr "sha1") None true in
  let st := mkState disk_cached [] in
  let first := MetaProxyCommon e demo_ctx "models" "org/repo" "main" "get" st in
  let second :=
    MetaProxyCommon e demo_ctx "models" "org/repo" "main" "get" first.2 in
  (exists t1 t2,
     new_events st first.2
       = [EvResolve "models" "org/repo" "main";
          EvWriteHeader 200 demo_headers; EvCopy "payload"] ++ t1 /\
     new_events first.2 second.2
       = [EvResolve "models" "org/repo" "main";
          EvWriteHeader 200 demo_headers; EvCopy "payload"] ++ t2 /\
     (t1 = [] \/ t1 = [EvErrorResponse ProxyError]) /\
     (t2 = [] \/ t2 = [EvErrorResponse ProxyError])) /\
  Forall (fun ev => is_origin_call ev = false) (new_events st first.2) /\
  Forall (fun ev => is_origin_call ev = false) (new_events first.2 second.2) /\
  disk second.2 = disk_cached.
Proof.
  intros e st first second.
  edestruct (cache_hit_idempotence e demo_ctx "models" "org/repo" "main" "get"
               st "sha1" (demo_content 200))
    as (_ & _ & Hserved & Hfirst & Hsecond & Hdisk); [reflexivity ..|].
  split; [exact Hserved|]. split; [exact Hfirst|].
  split; [exact Hsecond | exact Hdisk].
Defined.

Lemma upstream_failure_classification_witness :
  let call e :=
    run (MetaProxyCommon e demo_ctx "models" "org/repo" "main" "get")
        empty_disk in
  (call (demo_env true (inl (MyErr 404 "no such repo")) None true)).1
    = Some (EntryUnknown 404 "no such repo") /\
  (call (demo_env true (inl PlainErr) None true)).1 = Some ProxyError /\
  (call (demo_env true (inr "sha1") (Some (demo_response 403)) true)).1
    = Some (EntryUnknown 403 "request err") /\
  (call (demo_env true (inr "sha1") None true)).1 = Some EntryNotFound.
Proof.
  intros call. split; [|split; [|split]].
  - apply (upstream_failure_classification
             (demo_env true (inl (MyErr 404 "no such repo")) None true)
             demo_ctx "models" "org/repo" "main" "get" (mkState empty_disk [])).
    reflexivity.
  - apply (upstream_failure_classification
             (demo_env true (inl PlainErr) None true)
             demo_ctx "models" "org/repo" "main" "get" (mkState empty_disk [])).
    reflexivity.
  - apply (upstream_failure_classification
             (demo_env true (inr "sha1") (Some (demo_response 403)) true)
             demo_ctx "models" "org/repo" "main" "get" (mkState empty_disk [])
           ) with (commitSha := "sha1") (resp := demo_response 403);
      [reflexivity | reflexivity | left; reflexivity | reflexivity
      | discriminate | discriminate].
  - apply (upstream_failure_classification
             (demo_env true (inr "sha1") None true)
             demo_ctx "models" "org/repo" "main" "get" (mkState empty_disk [])
           ) with (commitSha := "sha1");
      [reflexivity | reflexivity | left; reflexivity | reflexivity].
Defined.

(** HEAD on the fetch path and on the cache-hit path. *)
Lemma head_short_circuit_witness :
  let e := demo_env true (inr "sha1") (Some (demo_response 200)) true in
  let call := run (MetaProxyCommon e demo_ctx "models" "org/repo" "main" "head") in
  Forall (fun ev => is_body_emission ev = false)
         (history (call empty_disk).2) /\
  history (call empty_disk).2
    = [EvResolve "models" "org/repo" "main";
       EvRemoteRequestMeta "head" "models" "org/repo" "main" "Bearer t";
       EvResponseHeaders 200 demo_headers] /\
  history (call disk_cached).2
    = [EvResolve "models" "org/repo" "main";
       EvResponseHeaders 200 demo_headers].
Proof.
  intros e call.
  destruct (head_short_circuit e demo_ctx "models" "org/repo" "main" "head"
              (mkState empty_disk []) eq_refl) as (Hnone & _ & Hfetch).
  destruct (head_short_circuit e demo_ctx "models" "org/repo" "main" "head"
              (mkState disk_cached []) eq_refl) as (_ & Hhit & _).
  split; [exact Hnone|]. split.
  - eapply (Hfetch "sha1" (demo_response 200));
      [reflexivity | reflexivity | left; reflexivity | reflexivity
      | left; reflexivity | reflexivity ..].
  - apply (Hhit "sha1" (demo_content 200));
      [reflexivity | left; split; reflexivity | reflexivity].
Defined.

(** Online with a cached refs file: the origin is asked all the same and its
    answer replaces the cached one.  Offline with the same file: the cached
    refs are streamed. *)
Lemma refs_refetch_policy_witness :
  let fresh := common.mkCacheContent 200 demo_headers "payload" in
  let call online :=
    run (RepoRefs (demo_env online (inr "sha1") (Some (demo_response 200)) true)
           demo_ctx "models" "org" "repo") disk_refs_cached in
  (history (call true).2
     = [EvRepoRefs "models" "org/repo" "Bearer t";
        EvResponseStream "org/repo" demo_headers ["payload"]] /\
   disk_read (disk (call true).2) refs_path = Some fresh) /\
  (history (call false).2 = [EvResponseStream "org/repo" ∅ ["old refs"]] /\
   disk (call false).2 = disk_refs_cached).
Proof.
  intros fresh call. split.
  - edestruct (refs_refetch_policy
                 (demo_env true (inr "sha1") (Some (demo_response 200)) true)
                 demo_ctx "models" "org" "repo" (mkState disk_refs_cached []))
      as ((_ & Hfetch) & _);
      [simpl; apply list_elem_of_here | by intros [? ?] | reflexivity
      | left; reflexivity |].
    edestruct (Hfetch (demo_response 200)) as (Hd & Hok);
      [reflexivity | reflexivity |].
    destruct (Hok eq_refl) as (Hread & Hev).
    unfold call, run. rewrite Hd. split; [exact Hev | exact Hread].
  - edestruct (refs_refetch_policy
                 (demo_env false (inr "sha1") (Some (demo_response 200)) true)
                 demo_ctx "models" "org" "repo" (mkState disk_refs_cached []))
      as (_ & Hcached);
      [simpl; apply list_elem_of_here | by intros [? ?] | reflexivity |].
    destruct (Hcached eq_refl eq_refl) as (_ & Hd & Hev).
    split; [exact (Hev old_refs eq_refl) | exact Hd].
Defined.

(** A 404 from the origin is cached and streamed like any other answer. *)
Lemma refs_no_status_validation_witness :
  let e := demo_env true (inr "sha1") (Some (demo_response 404)) true in
  let call := run (RepoRefs e demo_ctx "models" "org" "repo") empty_disk in
  disk_read (disk call.2) refs_path = Some (demo_content 404) /\
  (refsCacheContent e "models" "org/repo" "Bearer t" (mkState empty_disk [])).1
    = inr (demo_content 0) /\
  call.1 = None /\
  history call.2
    = [EvRepoRefs "models" "org/repo" "Bearer t";
       EvResponseStream "org/repo" demo_headers ["payload"]].
Proof.
  intros e call.
  edestruct (refs_no_status_validation e demo_ctx "models" "org" "repo"
               (mkState empty_disk []) empty_disk (demo_response 404))
    as (Hd & Hok);
    [simpl; apply list_elem_of_here | by intros [? ?] | reflexivity
    | left; reflexivity | reflexivity | reflexivity |].
  destruct (Hok eq_refl) as (Hread & Hcc & Hres & Hev).
  unfold call, run. rewrite Hd. auto.
Defined.

(** Offline and nothing cached: the refs proxy asks the origin, and the call
    succeeds. *)
Lemma offline_refs_counterexample :
  let e := demo_env false (inr "sha1") (Some (demo_response 200)) true in
  let st := mkState empty_disk [] in
  let call := RepoRefs e demo_ctx "models" "org" "repo" st in
  Online (SysConfig e) = false /\
  disk_exists (disk st) (refsPath e "models" (GetOrgRepo e "org" "repo"))
    = false /\
  call.1 = None /\
  new_events st call.2
    = [EvRepoRefs "models" "org/repo" "Bearer t";
       EvResponseStream "org/repo" demo_headers ["payload"]] /\
  ~ (call.1 = Some ProxyError /\
     Forall (fun ev => is_origin_call ev = false) (new_events st call.2)).
Proof.
  intros e st call.
  split; [reflexivity|]. split; [reflexivity|]. split; [reflexivity|].
  split; [reflexivity|]. intros [Herr _]. discriminate Herr.
Qed.

Lemma offline_without_cache_witness :
  let e := demo_env false (inr "sha1") (Some (demo_response 200)) true in
  let meta :=
    run (MetaProxyCommon e demo_ctx "models" "org/repo" "main" "get")
        empty_disk in
  let refs d := run (RepoRefs e demo_ctx "models" "org" "repo") d in
  (meta.1 = Some ProxyError /\
   Forall (fun ev => is_origin_call ev = false) (history meta.2)) /\
  ((refs disk_refs_unreadable).1 = Some ProxyError /\
   history (refs disk_refs_unreadable).2 = [EvErrorResponse ProxyError]) /\
  (exists rest,
     history (refs empty_disk).2
       = EvRepoRefs "models" "org/repo" "Bearer t" :: rest).
Proof.
  intros e meta refs.
  destruct (offline_without_cache e demo_ctx (mkState empty_disk []) eq_refl)
    as (Hmeta & Hrefs).
  destruct (offline_without_cache e demo_ctx
              (mkState disk_refs_unreadable []) eq_refl) as (_ & Hbad).
  split; [|split].
  - destruct (Hmeta "models" "org/repo" "main" "get" "sha1" eq_refl
                (or_introl eq_refl)) as (Hres & Hno & _).
    split; [exact Hres | exact Hno].
  - edestruct (Hbad "models" "org" "repo") as (Hunreadable & _);
      [simpl; apply list_elem_of_here | by intros [? ?] | reflexivity |].
    exact (Hunreadable eq_refl eq_refl).
  - edestruct (Hrefs "models" "org" "repo") as (_ & Hnofile);
      [simpl; apply list_elem_of_here | by intros [? ?] | reflexivity |].
    exact (Hnofile eq_refl).
Defined.

Example listing_root_run :
  RepositoryFiles listing_env listing_disk "models" "org/repo" "sha1" ""
  = inr [mkFileDescribe "a_dir" 0 true "";
         mkFileDescribe "a.txt" 7 false
           "http://mirror/models/org/repo/resolve/sha1/a.txt";
         mkFileDescribe "b.txt" 9 false
           "http://mirror/models/org/repo/resolve/sha1/b.txt"].
Proof. vm_compute. reflexivity. Qed.

Example listing_sub_run :
  RepositoryFiles listing_env listing_disk "models" "org/repo" "sha1" "sub"
  = inr [mkFileDescribe "a.txt" 42 false
           "http://mirror/models/org/repo/resolve/sha1/sub/a.txt";
         mkFileDescribe "c.txt" 5 false
           "http://mirror/models/org/repo/resolve/sha1/sub/c.txt"].
Proof. vm_compute. reflexivity. Qed.

(** The listing of the spec: [b.txt], [a_dir], [a.txt] come out as [a_dir],
    [a.txt], [b.txt]. *)
Lemma listing_sort_order_witness :
  let a_dir := mkFileDescribe "a_dir" 0 true "" in
  let a_txt :=
    mkFileDescribe "a.txt" 7 false
      "http://mirror/models/org/repo/resolve/sha1/a.txt" in
  let b_txt :=
    mkFileDescribe "b.txt" 9 false
      "http://mirror/models/org/repo/resolve/sha1/b.txt" in
  RepositoryFiles listing_env listing_disk "models" "org/repo" "sha1" ""
    = inr [a_dir; a_txt; b_txt] /\
  (exists files,
     disk_readdir listing_disk
       (pathsInfoDir listing_env "models" "org/repo" "sha1" "")
       = Some files /\
     [a_dir; a_txt; b_txt]
       ≡ₚ foldl (describeEntry listing_env listing_disk "models" "org/repo"
                   "sha1" "") [] files) /\
  ((IsDir a_txt = true -> IsDir a_dir = true) /\
   (IsDir a_dir = IsDir a_txt ->
    String.leb (Name a_dir) (Name a_txt) = true)) /\
  ((IsDir b_txt = true -> IsDir a_txt = true) /\
   (IsDir a_txt = IsDir b_txt ->
    String.leb (Name a_txt) (Name b_txt) = true)).
Proof.
  intros a_dir a_txt b_txt.
  assert (Hrun : RepositoryFiles listing_env listing_disk "models" "org/repo"
                   "sha1" "" = inr [a_dir; a_txt; b_txt])
    by (vm_compute; reflexivity).
  destruct (listing_sort_order listing_env listing_disk "models" "org/repo"
              "sha1" "" _ Hrun) as [Hperm Hsorted].
  split; [exact Hrun|]. split; [exact Hperm|]. split.
  - exact (Hsorted 0%nat 1%nat a_dir a_txt ltac:(lia) eq_refl eq_refl).
  - exact (Hsorted 1%nat 2%nat a_txt b_txt ltac:(lia) eq_refl eq_refl).
Defined.

(** The paths-info file of the spec, under [sub]. *)
Lemma listing_size_extraction_witness :
  exists out,
    RepositoryFiles listing_env listing_disk "models" "org/repo" "sha1" "sub"
      = inr out /\
    mkFileDescribe "a.txt" 42 false
      "http://mirror/models/org/repo/resolve/sha1/sub/a.txt" ∈ out.
Proof.
  apply (listing_size_extraction listing_env listing_disk "models" "org/repo"
           "sha1" "sub" ["a.txt"; "bad.bin"; "c.txt"] "a.txt"
           (common.mkCacheContent 200 ∅
              ("[" +:+ Json.entry "sub/a.txt" "42" +:+ "]"))
           [common.mkPathsInfo "sub/a.txt" 42] 0%nat
           (common.mkPathsInfo "sub/a.txt" 42));
    [reflexivity | reflexivity | by apply list_elem_of_here
    | reflexivity | reflexivity | reflexivity | reflexivity | reflexivity
    | intros j other Hj; lia].
Defined.

(** [bad.bin] is dropped, [a.txt] and [c.txt] are listed. *)
Lemma malformed_entry_tolerance_witness :
  exists out,
    RepositoryFiles listing_env listing_disk "models" "org/repo" "sha1" "sub"
      = inr out /\
    Name <$> out ≡ₚ ["a.txt"; "c.txt"].
Proof.
  edestruct (malformed_entry_tolerance listing_env listing_disk "models"
               "org/repo" "sha1" "sub" ["a.txt"; "bad.bin"; "c.txt"])
    as (out & Hrun & Hnames); [reflexivity | reflexivity |].
  exists out. split; [exact Hrun|].
  assert (Hkept :
    filter (fun item =>
              entry_fails listing_env listing_disk
                (pathsInfoDir listing_env "models" "org/repo" "sha1" "sub")
                item = false) ["a.txt"; "bad.bin"; "c.txt"]
    = ["a.txt"; "c.txt"]) by (vm_compute; reflexivity).
  rewrite <- Hkept. exact Hnames.
Defined.

(** * Further properties of the service *)

(** ** The metadata proxy, beyond the cache hit *)

Section ProxyMore.

Context {Disk : Type} `{CacheStoreLaws Disk}.
Variable env : Env.

(** After the four disk operations of [requestAndSaveMeta] have succeeded,
    both paths exist and read back the saved content. *)
Lemma saved_under_both_keys (d d1 d2 d3 d4 : Disk) pr pc sc hs b :
  disk_mkdirs d pr = (true, d1) ->
  disk_write d1 pr sc hs b = (true, d2) ->
  disk_mkdirs d2 pc = (true, d3) ->
  disk_write d3 pc sc hs b = (true, d4) ->
  (disk_exists d4 pr = true /\
   disk_read d4 pr = Some (common.mkCacheContent sc hs b)) /\
  (disk_exists d4 pc = true /\
   disk_read d4 pc = Some (common.mkCacheContent sc hs b)).
Proof.
  intros H1 H2 H3 H4.
  destruct (write_read _ _ _ _ _ _ H2) as [He2 Hr2].
  destruct (mkdirs_frame _ _ _ _ pr H3) as [Hr3 He3].
  destruct (write_read _ _ _ _ _ _ H4) as [He4 Hr4].
  split; [|done].
  destruct (decide (pr = pc)) as [-> | Hne]; [done|].
  destruct (write_frame _ _ _ _ _ _ _ pr H4 Hne) as [Hr He].
  split; [apply He, He3, He2 | by rewrite Hr, Hr3].
Qed.

Lemma metaRespond_result method cc (st : State Disk) :
  let call := metaRespond env method (Some cc) st in
  exists tail,
    history call.2 = history st ++ respond_events env method cc ++ tail /\
    (tail = [] \/
     tail = [EvErrorResponse ProxyError] /\ call.1 = Some ProxyError).
Proof.
  unfold metaRespond, respond_events. unfold_collaborators. exec.
  destruct (String.eqb method _); simpl.
  - exists []. auto.
  - destruct (emit_copy env _ _); simpl.
    + exists []. rewrite <- !app_assoc. auto.
    + exists [EvErrorResponse ProxyError]. rewrite <- !app_assoc. auto.
Qed.

(** The shape of the history of one call: the resolver is asked, then
    either an error response ends the call, or the content is emitted,
    after at most one fetch. *)
Lemma MetaProxyCommon_trace c repoType orgRepo commit method (st : State Disk) :
  let call := MetaProxyCommon env c repoType orgRepo commit method st in
  let asked := EvResolve repoType orgRepo commit in
  let fetched :=
    EvRemoteRequestMeta method repoType orgRepo commit (authorization c) in
  exists pre post,
    new_events st call.2 = asked :: pre ++ post /\
    (pre = [] \/ pre = [fetched]) /\
    ((exists e, post = [EvErrorResponse e] /\ call.1 = Some e) \/
     (exists cc tail,
        post = respond_events env method cc ++ tail /\
        (tail = [] \/
         tail = [EvErrorResponse ProxyError] /\ call.1 = Some ProxyError))).
Proof.
  intros call asked fetched. subst call asked fetched.
  destruct (resolver env (history st) repoType orgRepo commit)
    as [err | commitSha] eqn:Hr.
  { rewrite (MetaProxyCommon_unresolved env _ _ _ _ _ _ _ Hr). simpl.
    exists [], [EvErrorResponse
                  match err with
                  | MyErr code msg => EntryUnknown code msg
                  | PlainErr => ProxyError
                  end].
    split; [by apply new_events_app|]. split; [by left|].
    left. eexists. done. }
  rewrite (MetaProxyCommon_resolved env _ _ _ _ _ _ _ Hr). cbv zeta.
  set (asked := EvResolve repoType orgRepo commit).
  set (fetched :=
         EvRemoteRequestMeta method repoType orgRepo commit (authorization c)).
  set (st0 := mkState (disk st) (history st ++ [asked])).
  assert (Hrespond : forall cc (st1 : State Disk) pre,
    history st1 = history st ++ asked :: pre ->
    pre = [] \/ pre = [fetched] ->
    let call := metaRespond env method (Some cc) st1 in
    exists pre post,
      new_events st call.2 = asked :: pre ++ post /\
      (pre = [] \/ pre = [fetched]) /\
      ((exists e, post = [EvErrorResponse e] /\ call.1 = Some e) \/
       (exists cc tail,
          post = respond_events env method cc ++ tail /\
          (tail = [] \/
           tail = [EvErrorResponse ProxyError] /\ call.1 = Some ProxyError)))).
  { intros cc st1 pre Hh Hpre. cbv zeta.
    destruct (metaRespond_result method cc st1) as (tail & Ht & Hres).
    exists pre, (respond_events env method cc ++ tail).
    split; [|split; [done|]].
    - apply new_events_app. rewrite Ht, Hh.
      by rewrite <- app_assoc.
    - right. by exists cc, tail. }
  assert (Hfetch :
    let call :=
      requestAndSaveMeta env c repoType orgRepo commit commitSha method st0 in
    match call.1 with
    | inl e => history call.2
               = history st ++ [asked; fetched; EvErrorResponse e]
    | inr _ => history call.2 = history st ++ [asked; fetched]
    end).
  { cbv zeta.
    destruct (origin_meta env (history st0) method repoType orgRepo commit
                (authorization c)) as [resp|] eqn:Ho.
    - destruct (decide (common.RespStatusCode resp = StatusOK \/
                        common.RespStatusCode resp = StatusTemporaryRedirect))
        as [Hs | Hs].
      + destruct (disk_mkdirs (disk st0)
                    (metaPath env repoType orgRepo commit method))
          as [ok1 d1] eqn:H1.
        destruct (disk_write d1 (metaPath env repoType orgRepo commit method)
                    (common.RespStatusCode resp)
                    (ExtractHeaders env (common.RespHeaders resp))
                    (common.Body resp)) as [ok2 d2] eqn:H2.
        destruct (disk_mkdirs d2
                    (metaPath env repoType orgRepo commitSha method))
          as [ok3 d3] eqn:H3.
        destruct (disk_write d3
                    (metaPath env repoType orgRepo commitSha method)
                    (common.RespStatusCode resp)
                    (ExtractHeaders env (common.RespHeaders resp))
                    (common.Body resp)) as [ok4 d4] eqn:H4.
        rewrite (requestAndSaveMeta_accepted env c repoType orgRepo commit
                   commitSha method st0 resp Ho Hs _ _ _ _ _ _ _ _
                   H1 H2 H3 H4).
        destruct ok1, ok2, ok3, ok4; simpl; by rewrite <- ?app_assoc.
      + rewrite (requestAndSaveMeta_rejected env c repoType orgRepo commit
                   commitSha method st0 resp Ho) by tauto.
        simpl. by rewrite <- app_assoc.
    - rewrite (requestAndSaveMeta_transport env c repoType orgRepo commit
                 commitSha method st0 Ho).
      simpl. by rewrite <- app_assoc. }
  assert (Hfetched :
    let call :=
      requestAndSaveMeta env c repoType orgRepo commit commitSha method st0 in
    let out :=
      match call.1 with
      | inl e => (Some e, call.2)
      | inr cc => metaRespond env method (Some cc) call.2
      end in
    exists pre post,
      new_events st out.2 = asked :: pre ++ post /\
      (pre = [] \/ pre = [fetched]) /\
      ((exists e, post = [EvErrorResponse e] /\ out.1 = Some e) \/
       (exists cc tail,
          post = respond_events env method cc ++ tail /\
          (tail = [] \/
           tail = [EvErrorResponse ProxyError] /\ out.1 = Some ProxyError)))).
  { cbv zeta in *.
    destruct (requestAndSaveMeta env c repoType orgRepo commit commitSha
                method st0) as [[e | cc] st1]; cbn [fst snd] in *.
    - exists [fetched], [EvErrorResponse e].
      split; [by apply new_events_app|]. split; [by right|].
      left. eexists. done.
    - apply (Hrespond cc st1 [fetched]); [done | by right]. }
  cbv zeta in Hfetched.
  set (pc := metaPath env repoType orgRepo commitSha method).
  destruct (Online (SysConfig env)) eqn:Hon.
  - destruct (disk_exists (disk st0) pc) eqn:He;
      [destruct (disk_read (disk st0) pc) as [cc|] eqn:Hread|].
    + rewrite (metaCacheContent_hit env c repoType orgRepo commit commitSha
                 method st0 cc Hon He Hread).
      cbn [fst snd]. apply (Hrespond cc st0 []); [done | by left].
    + rewrite (metaCacheContent_miss env c repoType orgRepo commit commitSha
                 method st0 Hon (or_intror Hread)).
      cbv zeta. cbn [fst snd].
      destruct (requestAndSaveMeta env c repoType orgRepo commit commitSha
                  method st0) as [[e | cc] st1]; exact Hfetched.
    + rewrite (metaCacheContent_miss env c repoType orgRepo commit commitSha
                 method st0 Hon (or_introl He)).
      cbv zeta. cbn [fst snd].
      destruct (requestAndSaveMeta env c repoType orgRepo commit commitSha
                  method st0) as [[e | cc] st1]; exact Hfetched.
  - rewrite (metaCacheContent_offline env c repoType orgRepo commit commitSha
               method st0 Hon).
    fold pc. destruct (disk_read (disk st0) pc) as [cc|]; cbn [fst snd].
    + apply (Hrespond cc st0 []); [done | by left].
    + exists [], [EvErrorResponse ProxyError].
      split; [apply new_events_app; simpl; by rewrite <- app_assoc|].
      split; [by left|]. left. eexists. done.
Qed.

(** A successful fetch, seen from [MetaProxyCommon]. *)
Lemma MetaProxyCommon_fetched c repoType orgRepo commit method
    (st : State Disk) commitSha resp d1 d2 d3 d4 :
  resolver env (history st) repoType orgRepo commit = inr commitSha ->
  Online (SysConfig env) = true ->
  disk_exists (disk st) (metaPath env repoType orgRepo commitSha method) = false
  \/ disk_read (disk st) (metaPath env repoType orgRepo commitSha method)
     = None ->
  origin_meta env (history st ++ [EvResolve repoType orgRepo commit]) method
    repoType orgRepo commit (authorization c) = Some resp ->
  common.RespStatusCode resp = StatusOK \/
  common.RespStatusCode resp = StatusTemporaryRedirect ->
  let pr := metaPath env repoType orgRepo commit method in
  let pc := metaPath env repoType orgRepo commitSha method in
  let sc := common.RespStatusCode resp in
  let hs := ExtractHeaders env (common.RespHeaders resp) in
  let b := common.Body resp in
  disk_mkdirs (disk st) pr = (true, d1) ->
  disk_write d1 pr sc hs b = (true, d2) ->
  disk_mkdirs d2 pc = (true, d3) ->
  disk_write d3 pc sc hs b = (true, d4) ->
  MetaProxyCommon env c repoType orgRepo commit method st
  = metaRespond env method (Some (common.mkCacheContent sc hs b))
      (mkState d4
         (history st
            ++ [EvResolve repoType orgRepo commit;
                EvRemoteRequestMeta method repoType orgRepo commit
                  (authorization c)])).
Proof.
  intros Hr Hon Hmiss Ho Hs pr pc sc hs b H1 H2 H3 H4.
  rewrite (MetaProxyCommon_fetch env _ _ _ _ _ _ _ Hr Hon Hmiss). cbv zeta.
  rewrite (requestAndSaveMeta_accepted env c repoType orgRepo commit commitSha
             method (mkState (disk st) _) resp Ho Hs _ _ _ _ _ _ _ _
             H1 H2 H3 H4).
  simpl. by rewrite <- app_assoc.
Qed.

(** X1. Fetch on a miss or on an unreadable entry.  Online, when the entry
    of the resolved key is absent, or present but unreadable, and the origin
    answers with an accepted status and the saves go through, the client is
    sent the fetched content, and the entry of the key now exists and reads
    back that content: an unreadable entry has been replaced. *)
Theorem fetch_serves_and_saves c repoType orgRepo commit method
    (st : State Disk) commitSha resp d1 d2 d3 d4 :
  resolver env (history st) repoType orgRepo commit = inr commitSha ->
  Online (SysConfig env) = true ->
  disk_exists (disk st) (metaPath env repoType orgRepo commitSha method) = false
  \/ disk_read (disk st) (metaPath env repoType orgRepo commitSha method)
     = None ->
  origin_meta env (history st ++ [EvResolve repoType orgRepo commit]) method
    repoType orgRepo commit (authorization c) = Some resp ->
  common.RespStatusCode resp = StatusOK \/
  common.RespStatusCode resp = StatusTemporaryRedirect ->
  let pr := metaPath env repoType orgRepo commit method in
  let pc := metaPath env repoType orgRepo commitSha method in
  let sc := common.RespStatusCode resp in
  let hs := ExtractHeaders env (common.RespHeaders resp) in
  let b := common.Body resp in
  let cc := common.mkCacheContent sc hs b in
  let call := MetaProxyCommon env c repoType orgRepo commit method st in
  disk_mkdirs (disk st) pr = (true, d1) ->
  disk_write d1 pr sc hs b = (true, d2) ->
  disk_mkdirs d2 pc = (true, d3) ->
  disk_write d3 pc sc hs b = (true, d4) ->
  disk call.2 = d4 /\
  disk_exists d4 pc = true /\ disk_read d4 pc = Some cc /\
  exists tail,
    new_events st call.2
      = [EvResolve repoType orgRepo commit;
         EvRemoteRequestMeta method repoType orgRepo commit (authorization c)]
        ++ respond_events env method cc ++ tail /\
    (tail = [] \/ tail = [EvErrorResponse ProxyError]).
Proof.
  intros Hr Hon Hmiss Ho Hs pr pc sc hs b cc call H1 H2 H3 H4. subst call.
  rewrite (MetaProxyCommon_fetched c repoType orgRepo commit method st
             commitSha resp d1 d2 d3 d4 Hr Hon Hmiss Ho Hs H1 H2 H3 H4).
  fold sc hs b cc.
  destruct (saved_under_both_keys _ _ _ _ _ _ _ _ _ _ H1 H2 H3 H4)
    as [_ [He Hread]].
  destruct (metaRespond_content env method cc
              (mkState d4
                 (history st
                    ++ [EvResolve repoType orgRepo commit;
                        EvRemoteRequestMeta method repoType orgRepo commit
                          (authorization c)])))
    as (Hd & tail & Hh & Ht).
  split; [exact Hd|]. split; [exact He|]. split; [exact Hread|].
  exists tail. split; [|done].
  apply new_events_app. rewrite Hh. simpl. by rewrite <- app_assoc.
Qed.

(** X2. Offline, a readable entry is served as it is: the proxy reads the
    entry of the resolved key without first checking that it exists, sends
    its content, never asks the origin and leaves the disk as it was. *)
Theorem offline_serves_cache c repoType orgRepo commit method
    (st : State Disk) commitSha cc :
  Online (SysConfig env) = false ->
  resolver env (history st) repoType orgRepo commit = inr commitSha ->
  disk_read (disk st) (metaPath env repoType orgRepo commitSha method)
    = Some cc ->
  let call := MetaProxyCommon env c repoType orgRepo commit method st in
  disk call.2 = disk st /\
  Forall (fun e => is_origin_call e = false) (new_events st call.2) /\
  exists tail,
    new_events st call.2
      = (EvResolve repoType orgRepo commit :: respond_events env method cc)
          ++ tail /\
    (tail = [] \/ tail = [EvErrorResponse ProxyError]).
Proof.
  intros Hoff Hr Hread call.
  destruct (MetaProxyCommon_hit_events env c repoType orgRepo commit method st
              commitSha cc Hr (or_intror Hoff) Hread)
    as (Hd & tail & Hev & Ht).
  fold call in Hd, Hev. split; [exact Hd|]. split; [|by exists tail].
  rewrite Hev. apply Forall_app. split.
  - constructor; [done|]. unfold respond_events.
    destruct (String.eqb _ _); repeat constructor.
  - destruct Ht as [-> | ->]; repeat constructor.
Qed.

(** X3. A failing body copy.  For a method other than HEAD and a content
    served from the cache, the status and the headers are sent, then the
    body is copied; the call returns nil when the copy goes through, and
    when it fails a proxy error response follows what was already sent and
    the call returns that error. *)
Theorem copy_outcome_decides_result c repoType orgRepo commit method
    (st : State Disk) commitSha cc :
  String.eqb method (RequestTypeHead env) = false ->
  resolver env (history st) repoType orgRepo commit = inr commitSha ->
  Online (SysConfig env) = true /\
    disk_exists (disk st) (metaPath env repoType orgRepo commitSha method)
      = true
  \/ Online (SysConfig env) = false ->
  disk_read (disk st) (metaPath env repoType orgRepo commitSha method)
    = Some cc ->
  let call := MetaProxyCommon env c repoType orgRepo commit method st in
  let sent :=
    [EvResolve repoType orgRepo commit;
     EvWriteHeader (common.StatusCode cc) (common.Headers cc);
     EvCopy (common.OriginContent cc)] in
  let copied :=
    emit_copy env
      (history st
         ++ [EvResolve repoType orgRepo commit;
             EvWriteHeader (common.StatusCode cc) (common.Headers cc)])
      (common.OriginContent cc) in
  (copied = true -> call.1 = None /\ new_events st call.2 = sent) /\
  (copied = false ->
     call.1 = Some ProxyError /\
     new_events st call.2 = sent ++ [EvErrorResponse ProxyError]).
Proof.
  intros Hm Hr Hmode Hread call sent copied. subst call sent copied.
  rewrite (MetaProxyCommon_hit env _ _ _ _ _ _ _ _ Hr Hmode Hread).
  unfold metaRespond. unfold_collaborators. exec. rewrite Hm.
  simpl. rewrite <- !(app_assoc (history st)). simpl.
  destruct (emit_copy env _ _); simpl.
  all: split; intros Hc; try discriminate Hc.
  all: (split; [done|]); apply new_events_app; simpl;
    by rewrite <- ?app_assoc.
Qed.

(** Whatever it does next, [requestAndSaveMeta] starts by asking the
    origin. *)
Lemma requestAndSaveMeta_asks c repoType orgRepo commit commitSha method
    (st : State Disk) :
  exists evs,
    history (requestAndSaveMeta env c repoType orgRepo commit commitSha
               method st).2
    = history st
        ++ EvRemoteRequestMeta method repoType orgRepo commit
             (authorization c) :: evs.
Proof.
  destruct (origin_meta env (history st) method repoType orgRepo commit
              (authorization c)) as [resp|] eqn:Ho.
  - destruct (decide (common.RespStatusCode resp = StatusOK \/
                      common.RespStatusCode resp = StatusTemporaryRedirect))
      as [Hs | Hs].
    + destruct (disk_mkdirs (disk st)
                  (metaPath env repoType orgRepo commit method))
        as [ok1 d1] eqn:H1.
      destruct (disk_write d1 (metaPath env repoType orgRepo commit method)
                  (common.RespStatusCode resp)
                  (ExtractHeaders env (common.RespHeaders resp))
                  (common.Body resp)) as [ok2 d2] eqn:H2.
      destruct (disk_mkdirs d2
                  (metaPath env repoType orgRepo commitSha method))
        as [ok3 d3] eqn:H3.
      destruct (disk_write d3 (metaPath env repoType orgRepo commitSha method)
                  (common.RespStatusCode resp)
                  (ExtractHeaders env (common.RespHeaders resp))
                  (common.Body resp)) as [ok4 d4] eqn:H4.
      rewrite (requestAndSaveMeta_accepted env c repoType orgRepo commit
                 commitSha method st resp Ho Hs _ _ _ _ _ _ _ _ H1 H2 H3 H4).
      destruct ok1, ok2, ok3, ok4; simpl; rewrite <- ?app_assoc; simpl;
        by eexists.
    + rewrite (requestAndSaveMeta_rejected env c repoType orgRepo commit
                 commitSha method st resp Ho) by tauto.
      simpl. by eexists.
  - rewrite (requestAndSaveMeta_transport env c repoType orgRepo commit
               commitSha method st Ho).
    simpl. by eexists.
Qed.

(** A call that changes the disk is a fetch on a miss that the origin
    answered with an accepted status. *)
Lemma MetaProxyCommon_writes_only_on_fetch c repoType orgRepo commit method
    (st : State Disk) :
  let call := MetaProxyCommon env c repoType orgRepo commit method st in
  let p sha := metaPath env repoType orgRepo sha method in
  disk call.2 = disk st \/
  exists commitSha resp,
    resolver env (history st) repoType orgRepo commit = inr commitSha /\
    Online (SysConfig env) = true /\
    (disk_exists (disk st) (p commitSha) = false \/
     disk_read (disk st) (p commitSha) = None) /\
    origin_meta env (history st ++ [EvResolve repoType orgRepo commit]) method
      repoType orgRepo commit (authorization c) = Some resp /\
    (common.RespStatusCode resp = StatusOK \/
     common.RespStatusCode resp = StatusTemporaryRedirect) /\
    EvRemoteRequestMeta method repoType orgRepo commit (authorization c)
      ∈ new_events st call.2.
Proof.
  intros call p. subst call p. cbv beta.
  destruct (resolver env (history st) repoType orgRepo commit)
    as [err | commitSha] eqn:Hr.
  { left. by rewrite (MetaProxyCommon_unresolved env _ _ _ _ _ _ _ Hr). }
  set (pc := metaPath env repoType orgRepo commitSha method).
  destruct (Online (SysConfig env)) eqn:Hon.
  - assert (Hmiss : disk_exists (disk st) pc = false \/
                    disk_read (disk st) pc = None ->
              disk (MetaProxyCommon env c repoType orgRepo commit method st).2
              = disk st \/
              exists commitSha0 resp,
                @inr ResolveError string commitSha = inr commitSha0 /\
                true = true /\
                (disk_exists (disk st)
                   (metaPath env repoType orgRepo commitSha0 method) = false \/
                 disk_read (disk st)
                   (metaPath env repoType orgRepo commitSha0 method) = None) /\
                origin_meta env (history st ++ [EvResolve repoType orgRepo
                                                  commit]) method
                  repoType orgRepo commit (authorization c) = Some resp /\
                (common.RespStatusCode resp = StatusOK \/
                 common.RespStatusCode resp = StatusTemporaryRedirect) /\
                EvRemoteRequestMeta method repoType orgRepo commit
                  (authorization c)
                  ∈ new_events st
                      (MetaProxyCommon env c repoType orgRepo commit method
                         st).2).
    { intros Hmiss.
      rewrite (MetaProxyCommon_fetch env _ _ _ _ _ _ _ Hr Hon Hmiss).
      cbv zeta.
      set (st0 := mkState (disk st)
                    (history st ++ [EvResolve repoType orgRepo commit])).
      destruct (origin_meta env (history st0) method repoType orgRepo commit
                  (authorization c)) as [resp|] eqn:Ho.
      - destruct (decide (common.RespStatusCode resp = StatusOK \/
                          common.RespStatusCode resp
                          = StatusTemporaryRedirect)) as [Hs | Hs].
        + right. exists commitSha, resp.
          do 5 (split; [done|]).
          destruct (requestAndSaveMeta_asks c repoType orgRepo commit
                      commitSha method st0) as (evs & Hh).
          destruct (requestAndSaveMeta env c repoType orgRepo commit
                      commitSha method st0) as [[e | cc] st1];
            cbn [fst snd] in *.
          * erewrite new_events_app
              by (rewrite Hh; simpl; rewrite <- app_assoc; reflexivity).
            apply list_elem_of_further, list_elem_of_here.
          * destruct (metaRespond_content env method cc st1)
              as (_ & tail & Ht & _).
            erewrite new_events_app
              by (rewrite Ht, Hh; simpl; rewrite <- !app_assoc; reflexivity).
            apply list_elem_of_further, list_elem_of_here.
        + left.
          rewrite (requestAndSaveMeta_rejected env c repoType orgRepo commit
                     commitSha method st0 resp Ho) by tauto.
          done.
      - left.
        by rewrite (requestAndSaveMeta_transport env c repoType orgRepo
                      commit commitSha method st0 Ho). }
    destruct (disk_exists (disk st) pc) eqn:He;
      [destruct (disk_read (disk st) pc) as [cc|] eqn:Hread|];
      [|by apply Hmiss; right | by apply Hmiss; left].
    left.
    by destruct (MetaProxyCommon_hit_events env c repoType orgRepo commit
                   method st commitSha cc Hr (or_introl (conj Hon He))
                   Hread) as [Hd _].
  - left. rewrite (MetaProxyCommon_resolved env _ _ _ _ _ _ _ Hr). cbv zeta.
    rewrite metaCacheContent_offline by done. simpl. fold pc.
    destruct (disk_read (disk st) pc) as [cc|]; simpl; [|done].
    exact (proj1 (metaRespond_content env method cc _)).
Qed.

(** X4. Failures are not cached.  A call of the metadata proxy that changes
    the disk ran online, found the entry of the resolved key absent or
    unreadable, asked the origin and got an answer with status 200 or 307.
    So a call that does not ask the origin (resolver failure, cache hit,
    offline call) leaves the disk as it was, and so does a fetch that the
    origin fails or answers with any other status. *)
Theorem disk_untouched_without_accepted_answer c repoType orgRepo commit
    method (st : State Disk) :
  let call := MetaProxyCommon env c repoType orgRepo commit method st in
  let p sha := metaPath env repoType orgRepo sha method in
  let asked := EvResolve repoType orgRepo commit in
  let fetched :=
    EvRemoteRequestMeta method repoType orgRepo commit (authorization c) in
  (disk call.2 = disk st \/
   exists commitSha resp,
     resolver env (history st) repoType orgRepo commit = inr commitSha /\
     Online (SysConfig env) = true /\
     (disk_exists (disk st) (p commitSha) = false \/
      disk_read (disk st) (p commitSha) = None) /\
     origin_meta env (history st ++ [asked]) method repoType orgRepo commit
       (authorization c) = Some resp /\
     (common.RespStatusCode resp = StatusOK \/
      common.RespStatusCode resp = StatusTemporaryRedirect) /\
     fetched ∈ new_events st call.2) /\
  (Forall (fun e => is_origin_call e = false) (new_events st call.2) ->
   disk call.2 = disk st) /\
  (forall commitSha cc,
     resolver env (history st) repoType orgRepo commit = inr commitSha ->
     disk_exists (disk st) (p commitSha) = true ->
     disk_read (disk st) (p commitSha) = Some cc ->
     disk call.2 = disk st) /\
  (origin_meta env (history st ++ [asked]) method repoType orgRepo commit
     (authorization c) = None ->
   disk call.2 = disk st) /\
  (forall resp,
     origin_meta env (history st ++ [asked]) method repoType orgRepo commit
       (authorization c) = Some resp ->
     common.RespStatusCode resp <> StatusOK ->
     common.RespStatusCode resp <> StatusTemporaryRedirect ->
     disk call.2 = disk st).
Proof.
  intros call p asked fetched.
  pose proof (MetaProxyCommon_writes_only_on_fetch c repoType orgRepo commit
                method st) as Hw.
  cbv zeta in Hw. fold call in Hw.
  split; [exact Hw|].
  split; [|split; [|split]].
  - intros Hno.
    destruct Hw as [Hd | (sha & resp & _ & _ & _ & _ & _ & Hin)]; [done|].
    rewrite Forall_forall in Hno. by apply Hno in Hin.
  - intros commitSha cc Hr He Hread.
    destruct Hw as [Hd | (sha & resp & Hr' & _ & Hmiss & _)]; [done|].
    rewrite Hr in Hr'. injection Hr' as <-.
    destruct Hmiss as [Hx | Hx]; subst p; simpl in Hx; congruence.
  - intros Ho.
    destruct Hw as [Hd | (sha & resp & _ & _ & _ & Ho' & _)]; [done|].
    subst asked. congruence.
  - intros resp Ho H1 H2.
    destruct Hw as [Hd | (sha & resp' & _ & _ & _ & Ho' & Hs & _)]; [done|].
    subst asked. rewrite Ho in Ho'. injection Ho' as <-. tauto.
Qed.

(** X5. No retry.  In every call of the metadata proxy the resolver is asked
    first, and the origin is asked at most once. *)
Theorem single_origin_call c repoType orgRepo commit method (st : State Disk) :
  let call := MetaProxyCommon env c repoType orgRepo commit method st in
  head (new_events st call.2) = Some (EvResolve repoType orgRepo commit) /\
  (length (filter (fun e => is_origin_call e = true) (new_events st call.2))
   <= 1)%nat.
Proof.
  intros call.
  destruct (MetaProxyCommon_trace c repoType orgRepo commit method st)
    as (pre & post & Hev & Hpre & Hpost).
  fold call in Hev, Hpost. rewrite Hev. split; [done|].
  assert (Hrespond : forall cc,
            filter (fun e => is_origin_call e = true)
                   (respond_events env method cc) = []).
  { intros cc. unfold respond_events. by destruct (String.eqb _ _). }
  rewrite filter_cons, decide_False by done. rewrite filter_app, length_app.
  assert (length (filter (fun e => is_origin_call e = true) post) = 0%nat)
    as ->.
  { destruct Hpost as [(e & -> & _) | (cc & tail & -> & Ht)]; [done|].
    rewrite filter_app, Hrespond.
    destruct Ht as [-> | [-> _]]; done. }
  destruct Hpre as [-> | ->]; simpl; lia.
Qed.

(** X7. Either identity hits after a fetch.  After a fetch for revision
    [commit] resolving to [commitSha] has been saved, a further call for the
    same repository and method whose revision resolves to [commitSha], or to
    [commit] itself, is served the fetched content from the cache: the
    origin is not asked again and the disk stays as the fetch left it. *)
Theorem fetch_then_hit c c2 repoType orgRepo commit commit2 method
    (st : State Disk) commitSha sha2 resp d1 d2 d3 d4 :
  resolver env (history st) repoType orgRepo commit = inr commitSha ->
  Online (SysConfig env) = true ->
  disk_exists (disk st) (metaPath env repoType orgRepo commitSha method) = false
  \/ disk_read (disk st) (metaPath env repoType orgRepo commitSha method)
     = None ->
  origin_meta env (history st ++ [EvResolve repoType orgRepo commit]) method
    repoType orgRepo commit (authorization c) = Some resp ->
  common.RespStatusCode resp = StatusOK \/
  common.RespStatusCode resp = StatusTemporaryRedirect ->
  let pr := metaPath env repoType orgRepo commit method in
  let pc := metaPath env repoType orgRepo commitSha method in
  let sc := common.RespStatusCode resp in
  let hs := ExtractHeaders env (common.RespHeaders resp) in
  let b := common.Body resp in
  let cc := common.mkCacheContent sc hs b in
  let first := MetaProxyCommon env c repoType orgRepo commit method st in
  let second :=
    MetaProxyCommon env c2 repoType orgRepo commit2 method first.2 in
  disk_mkdirs (disk st) pr = (true, d1) ->
  disk_write d1 pr sc hs b = (true, d2) ->
  disk_mkdirs d2 pc = (true, d3) ->
  disk_write d3 pc sc hs b = (true, d4) ->
  resolver env (history first.2) repoType orgRepo commit2 = inr sha2 ->
  sha2 = commitSha \/ sha2 = commit ->
  disk second.2 = d4 /\
  Forall (fun e => is_origin_call e = false) (new_events first.2 second.2) /\
  exists tail,
    new_events first.2 second.2
      = (EvResolve repoType orgRepo commit2 :: respond_events env method cc)
          ++ tail /\
    (tail = [] \/ tail = [EvErrorResponse ProxyError]).
Proof.
  intros Hr Hon Hmiss Ho Hs pr pc sc hs b cc first second H1 H2 H3 H4
         Hr2 Hsha.
  assert (Hd : disk first.2 = d4).
  { subst first.
    rewrite (MetaProxyCommon_fetched c repoType orgRepo commit method st
               commitSha resp d1 d2 d3 d4 Hr Hon Hmiss Ho Hs H1 H2 H3 H4).
    exact (proj1 (metaRespond_content env method _ _)). }
  destruct (saved_under_both_keys _ _ _ _ _ _ _ _ _ _ H1 H2 H3 H4)
    as [[Her Hrr] [Hec Hrc]].
  fold cc in Hrr, Hrc.
  assert (Hkey : disk_exists (disk first.2)
                   (metaPath env repoType orgRepo sha2 method) = true /\
                 disk_read (disk first.2)
                   (metaPath env repoType orgRepo sha2 method) = Some cc).
  { rewrite Hd. destruct Hsha as [-> | ->]; done. }
  destruct Hkey as [He Hread].
  destruct (MetaProxyCommon_hit_events env c2 repoType orgRepo commit2 method
              first.2 sha2 cc Hr2 (or_introl (conj Hon He)) Hread)
    as (Hd2 & tail & Hev & Ht).
  fold second in Hd2, Hev.
  split; [by rewrite Hd2|]. split; [|by exists tail].
  rewrite Hev. apply Forall_app. split.
  - constructor; [done|]. unfold respond_events.
    destruct (String.eqb _ _); repeat constructor.
  - destruct Ht as [-> | ->]; repeat constructor.
Qed.

(** ** The refs proxy, beyond the fetch *)

Lemma RepoRefs_unknown_type c repoType org repo (st : State Disk) :
  repoType ∉ RepoTypesMapping env ->
  RepoRefs env c repoType org repo st
  = (Some PageNotFound,
     mkState (disk st) (history st ++ [EvErrorResponse PageNotFound])).
Proof.
  intros Hty. unfold RepoRefs. by rewrite bool_decide_eq_false_2 by done.
Qed.

Lemma RepoRefs_no_names c repoType (st : State Disk) :
  repoType ∈ RepoTypesMapping env ->
  RepoRefs env c repoType "" "" st
  = (Some RepoNotFound,
     mkState (disk st) (history st ++ [EvErrorResponse RepoNotFound])).
Proof.
  intros Hty. unfold RepoRefs. by rewrite bool_decide_eq_true_2 by done.
Qed.

Lemma RepoRefs_no_dir c repoType org repo (st : State Disk) d1 :
  repoType ∈ RepoTypesMapping env ->
  ~ (org = "" /\ repo = "") ->
  disk_mkdirs (disk st) (refsPath env repoType (GetOrgRepo env org repo))
    = (false, d1) ->
  RepoRefs env c repoType org repo st
  = (Some ProxyError,
     mkState d1 (history st ++ [EvErrorResponse ProxyError])).
Proof.
  intros Hty Hnames Hmk. unfold RepoRefs.
  rewrite bool_decide_eq_true_2 by done. simpl.
  assert (String.eqb org "" && String.eqb repo "" = false) as ->.
  { destruct (String.eqb_spec org ""), (String.eqb_spec repo ""); tauto. }
  unfold_collaborators. exec. by rewrite Hmk.
Qed.

(** X9. Request validation of the refs proxy.  An unknown repository type
    gives "page not found", whatever the names; a known type with both
    organisation and repository empty gives "repo not found".  In both
    cases that error response is all the call does: no directory is made,
    nothing is read or written, the origin is not asked. *)
Theorem refs_request_validation c repoType org repo (st : State Disk) :
  let call := RepoRefs env c repoType org repo st in
  (repoType ∉ RepoTypesMapping env ->
     call = (Some PageNotFound,
             mkState (disk st)
               (history st ++ [EvErrorResponse PageNotFound]))) /\
  (repoType ∈ RepoTypesMapping env -> org = "" -> repo = "" ->
     call = (Some RepoNotFound,
             mkState (disk st)
               (history st ++ [EvErrorResponse RepoNotFound]))).
Proof.
  intros call. subst call. split.
  - apply RepoRefs_unknown_type.
  - intros Hty -> ->. by apply RepoRefs_no_names.
Qed.

(** X10. The origin is down.  On the fetch path (online, or offline without
    a cache file) a transport failure ends the call with a proxy error;
    nothing is written.  Refs cached before are not served instead, and
    they are still on disk afterwards. *)
Theorem refs_origin_down_keeps_cache c repoType org repo (st : State Disk) d1 :
  let orgRepo := GetOrgRepo env org repo in
  let p := refsPath env repoType orgRepo in
  let call := RepoRefs env c repoType org repo st in
  repoType ∈ RepoTypesMapping env ->
  ~ (org = "" /\ repo = "") ->
  disk_mkdirs (disk st) p = (true, d1) ->
  Online (SysConfig env) = true \/ disk_exists d1 p = false ->
  origin_refs env (history st) repoType orgRepo (authorization c) = None ->
  call.1 = Some ProxyError /\
  new_events st call.2
    = [EvRepoRefs repoType orgRepo (authorization c);
       EvErrorResponse ProxyError] /\
  disk call.2 = d1 /\
  disk_read (disk call.2) p = disk_read (disk st) p.
Proof.
  intros orgRepo p call Hty Hnames Hmk Hmode Ho. subst call.
  rewrite (RepoRefs_checked env c repoType org repo st d1 Hty Hnames Hmk).
  cbv zeta. fold orgRepo p.
  rewrite (refsCacheContent_fetch env repoType orgRepo (authorization c)
             (mkState d1 (history st)) Hmode).
  cbv zeta. simpl disk. simpl history. rewrite Ho. simpl.
  split; [done|]. split; [apply new_events_app; by rewrite <- app_assoc|].
  split; [done|]. exact (proj1 (mkdirs_frame _ _ _ _ p Hmk)).
Qed.

(** X11. Disk failures in the refs proxy.  When the directory of the cache
    path cannot be made, the call ends with a proxy error before the origin
    is asked.  When the origin has answered but the answer cannot be
    written, the call ends with a proxy error and the answer is not
    streamed. *)
Theorem refs_disk_failures c repoType org repo (st : State Disk) :
  let orgRepo := GetOrgRepo env org repo in
  let p := refsPath env repoType orgRepo in
  let call := RepoRefs env c repoType org repo st in
  let fetched := EvRepoRefs repoType orgRepo (authorization c) in
  repoType ∈ RepoTypesMapping env ->
  ~ (org = "" /\ repo = "") ->
  (forall d1,
     disk_mkdirs (disk st) p = (false, d1) ->
     call.1 = Some ProxyError /\ disk call.2 = d1 /\
     new_events st call.2 = [EvErrorResponse ProxyError]) /\
  (forall d1 resp d2,
     disk_mkdirs (disk st) p = (true, d1) ->
     Online (SysConfig env) = true \/ disk_exists d1 p = false ->
     origin_refs env (history st) repoType orgRepo (authorization c)
       = Some resp ->
     disk_write d1 p (common.RespStatusCode resp)
       (ExtractHeaders env (common.RespHeaders resp)) (common.Body resp)
       = (false, d2) ->
     call.1 = Some ProxyError /\ disk call.2 = d2 /\
     new_events st call.2 = [fetched; EvErrorResponse ProxyError]).
Proof.
  intros orgRepo p call fetched Hty Hnames. subst call. split.
  - intros d1 Hmk.
    rewrite (RepoRefs_no_dir c repoType org repo st d1 Hty Hnames Hmk).
    simpl. split; [done|]. split; [done|]. by apply new_events_app.
  - intros d1 resp d2 Hmk Hmode Ho Hw.
    rewrite (RepoRefs_checked env c repoType org repo st d1 Hty Hnames Hmk).
    cbv zeta. fold orgRepo p.
    rewrite (refsCacheContent_fetch env repoType orgRepo (authorization c)
               (mkState d1 (history st)) Hmode).
    cbv zeta. simpl disk. simpl history. fold p. rewrite Ho, Hw. simpl.
    split; [done|]. split; [done|].
    apply new_events_app. by rewrite <- app_assoc.
Qed.

(** X12. Online then offline.  Refs fetched and saved by a call in online
    mode are what a later call in offline mode streams, for a configuration
    with the same repository root: the same headers and the same body, and
    the origin is not asked. *)
Theorem refs_online_then_offline (env' : Env) c c' repoType org repo
    (st : State Disk) resp d1 d2 d3 :
  let orgRepo := GetOrgRepo env org repo in
  let p := refsPath env repoType orgRepo in
  let hs := ExtractHeaders env (common.RespHeaders resp) in
  let b := common.Body resp in
  let first := RepoRefs env c repoType org repo st in
  let second := RepoRefs env' c' repoType org repo first.2 in
  Online (SysConfig env) = true ->
  Online (SysConfig env') = false ->
  Repos (SysConfig env') = Repos (SysConfig env) ->
  GetOrgRepo env' org repo = orgRepo ->
  repoType ∈ RepoTypesMapping env ->
  repoType ∈ RepoTypesMapping env' ->
  ~ (org = "" /\ repo = "") ->
  origin_refs env (history st) repoType orgRepo (authorization c)
    = Some resp ->
  disk_mkdirs (disk st) p = (true, d1) ->
  disk_write d1 p (common.RespStatusCode resp) hs b = (true, d2) ->
  disk_mkdirs d2 p = (true, d3) ->
  new_events st first.2
    = [EvRepoRefs repoType orgRepo (authorization c);
       EvResponseStream orgRepo hs [b]] /\
  new_events first.2 second.2 = [EvResponseStream orgRepo hs [b]] /\
  disk second.2 = d3.
Proof.
  intros orgRepo p hs b first second Hon Hoff Hrepos Horg Hty Hty' Hnames
         Ho Hmk Hw Hmk'.
  assert (Hfirst : first
            = ResponseStream env orgRepo hs [b]
                (mkState d2
                   (history st
                      ++ [EvRepoRefs repoType orgRepo (authorization c)]))).
  { subst first.
    rewrite (RepoRefs_checked env c repoType org repo st d1 Hty Hnames Hmk).
    cbv zeta. fold orgRepo p.
    rewrite (refsCacheContent_fetch env repoType orgRepo (authorization c)
               (mkState d1 (history st)) (or_introl Hon)).
    cbv zeta. simpl disk. simpl history. fold p. rewrite Ho. fold hs b.
    rewrite Hw. reflexivity. }
  assert (Hp' : refsPath env' repoType (GetOrgRepo env' org repo) = p).
  { unfold refsPath. by rewrite Horg, Hrepos. }
  assert (Hd : disk first.2 = d2) by by rewrite Hfirst.
  destruct (write_read _ _ _ _ _ _ Hw) as [He Hread].
  destruct (mkdirs_frame _ _ _ _ p Hmk') as [Hread' He'].
  split; [rewrite Hfirst; apply new_events_app; unfold_collaborators; exec;
          by rewrite <- app_assoc|].
  subst second.
  rewrite (RepoRefs_checked env' c' repoType org repo first.2 d3 Hty' Hnames)
    by by rewrite Hp', Hd.
  cbv zeta. rewrite Horg.
  rewrite (refsCacheContent_cached env' repoType orgRepo (authorization c')
             (mkState d3 (history first.2)) Hoff)
    by (simpl; rewrite <- Horg, Hp'; auto).
  simpl disk. rewrite <- Horg, Hp', Horg, Hread', Hread. simpl.
  unfold_collaborators. exec. split; [by apply new_events_app | done].
Qed.

(** X13. One response per call.  Every call of the refs proxy ends by
    sending the client exactly one response: an error response, which is
    also what the call returns, or one stream of a single chunk.  Before
    that, the origin is asked at most once. *)
Theorem refs_one_response c repoType org repo (st : State Disk) :
  let orgRepo := GetOrgRepo env org repo in
  let call := RepoRefs env c repoType org repo st in
  exists pre r,
    new_events st call.2 = pre ++ [r] /\
    (pre = [] \/ pre = [EvRepoRefs repoType orgRepo (authorization c)]) /\
    ((exists e, r = EvErrorResponse e /\ call.1 = Some e) \/
     (exists hs chunk, r = EvResponseStream orgRepo hs [chunk])).
Proof.
  intros orgRepo call. subst call.
  set (fetched := EvRepoRefs repoType orgRepo (authorization c)).
  set (p := refsPath env repoType orgRepo).
  destruct (decide (repoType ∈ RepoTypesMapping env)) as [Hty | Hty].
  2: { rewrite (RepoRefs_unknown_type c repoType org repo st Hty).
       exists [], (EvErrorResponse PageNotFound).
       split; [by apply new_events_app|]. split; [by left|].
       left. by eexists. }
  destruct (decide (org = "" /\ repo = "")) as [[-> ->] | Hnames].
  { rewrite (RepoRefs_no_names c repoType st Hty).
    exists [], (EvErrorResponse RepoNotFound).
    split; [by apply new_events_app|]. split; [by left|].
    left. by eexists. }
  destruct (disk_mkdirs (disk st) p) as [[] d1] eqn:Hmk.
  2: { rewrite (RepoRefs_no_dir c repoType org repo st d1 Hty Hnames Hmk).
       exists [], (EvErrorResponse ProxyError).
       split; [by apply new_events_app|]. split; [by left|].
       left. by eexists. }
  rewrite (RepoRefs_checked env c repoType org repo st d1 Hty Hnames Hmk).
  cbv zeta. fold orgRepo p.
  assert (Hfetch :
    Online (SysConfig env) = true \/ disk_exists d1 p = false ->
    let pick :=
      refsCacheContent env repoType orgRepo (authorization c)
        (mkState d1 (history st)) in
    let out :=
      match pick.1 with
      | inl e => (Some e, pick.2)
      | inr cacheContent =>
        ResponseStream env orgRepo (common.Headers cacheContent)
          [common.OriginContent cacheContent] pick.2
      end in
    exists pre r,
      new_events st out.2 = pre ++ [r] /\
      (pre = [] \/ pre = [fetched]) /\
      ((exists e, r = EvErrorResponse e /\ out.1 = Some e) \/
       (exists hs chunk, r = EvResponseStream orgRepo hs [chunk]))).
  { intros Hmode. cbv zeta.
    rewrite (refsCacheContent_fetch env repoType orgRepo (authorization c)
               (mkState d1 (history st)) Hmode).
    cbv zeta. simpl disk. simpl history. fold p fetched.
    destruct (origin_refs env (history st) repoType orgRepo (authorization c))
      as [resp|].
    - destruct (disk_write d1 p _ _ _) as [[] d2]; cbn [fst snd].
      + eexists [fetched], _.
        split; [apply new_events_app; unfold_collaborators; exec;
                by rewrite <- app_assoc|].
        split; [by right|]. right. eauto.
      + exists [fetched], (EvErrorResponse ProxyError).
        split; [apply new_events_app; simpl; by rewrite <- app_assoc|].
        split; [by right|]. left. by eexists.
    - cbn [fst snd]. exists [fetched], (EvErrorResponse ProxyError).
      split; [apply new_events_app; simpl; by rewrite <- app_assoc|].
      split; [by right|]. left. by eexists. }
  cbv zeta in Hfetch.
  destruct (Online (SysConfig env)) eqn:Hon; [by apply Hfetch; left|].
  destruct (disk_exists d1 p) eqn:He; [|by apply Hfetch; right].
  rewrite (refsCacheContent_cached env repoType orgRepo (authorization c)
             (mkState d1 (history st)) Hon He).
  simpl disk. fold p.
  destruct (disk_read d1 p) as [cc|]; cbn [fst snd].
  - eexists [], _.
    split; [apply new_events_app; unfold_collaborators; exec; reflexivity|].
    split; [by left|]. right. eauto.
  - exists [], (EvErrorResponse ProxyError).
    split; [by apply new_events_app|]. split; [by left|].
    left. by eexists.
Qed.

End ProxyMore.

(** ** Cache paths *)

Lemma string_length_app (x y : string) :
  String.length (x +:+ y) = (String.length x + String.length y)%nat.
Proof. induction x as [|a x IH]; simpl; [done | by rewrite IH]. Qed.

Lemma string_app_inj_r (x y s : string) : x +:+ s = y +:+ s -> x = y.
Proof.
  revert y. induction x as [|a x IH]; intros [|b y] Heq.
  - done.
  - apply (f_equal String.length) in Heq.
    rewrite !string_length_app in Heq. simpl in Heq. lia.
  - apply (f_equal String.length) in Heq.
    rewrite !string_length_app in Heq. simpl in Heq. lia.
  - change (String a (x +:+ s) = String b (y +:+ s)) in Heq.
    injection Heq as -> Heq. f_equal. by apply IH.
Qed.

(** X8. One cache file per revision.  For a repository and a method, two
    revisions have the same metadata cache path only if they are the same
    revision: the two writes of a fetch go to one file exactly when the
    caller's revision is the commit itself. *)
Theorem metaPath_inj env repoType orgRepo rev rev' method :
  metaPath env repoType orgRepo rev method
  = metaPath env repoType orgRepo rev' method ->
  rev = rev'.
Proof.
  unfold metaPath, revisionDir. intros Heq.
  apply string_app_inj_r in Heq.
  by repeat apply String.app_inj in Heq.
Qed.

(** ** The listing, entry by entry *)

Section ListingMore.

Context {Disk : Type} `{CacheStore Disk}.
Variable env : Env.

(** X14. The listing fails only at its root.  [RepositoryFiles] returns an
    error exactly when the listing root does not exist ("file not exists")
    or cannot be enumerated; no failure of an entry makes the call fail. *)
Theorem listing_fails_only_at_root (d : Disk) repoType orgRepo commit filePath :
  let dir := pathsInfoDir env repoType orgRepo commit filePath in
  let call := RepositoryFiles env d repoType orgRepo commit filePath in
  (disk_exists d dir = false -> call = inl FileNotExists) /\
  (disk_exists d dir = true -> disk_readdir d dir = None ->
     call = inl ReadDirError) /\
  ((exists e, call = inl e) <->
   disk_exists d dir = false \/ disk_readdir d dir = None).
Proof.
  intros dir call. subst call. unfold RepositoryFiles. fold dir.
  destruct (disk_exists d dir); simpl;
    destruct (disk_readdir d dir) as [files|]; simpl;
    (split; [done|]); (split; [done|]); split.
  - by intros [e He].
  - by intros [? | ?].
  - by right.
  - intros _. by exists ReadDirError.
  - by left.
  - intros _. by exists FileNotExists.
  - by left.
  - intros _. by exists FileNotExists.
Qed.

(** X15. Directories in the listing.  An entry of the listing root without a
    paths-info file is listed as a directory, with size 0 and no link. *)
Theorem listing_directory_entry (d : Disk) repoType orgRepo commit filePath
    (files : list string) item :
  let dir := pathsInfoDir env repoType orgRepo commit filePath in
  disk_exists d dir = true ->
  disk_readdir d dir = Some files ->
  item ∈ files ->
  disk_exists d (dir +:+ "/" +:+ item +:+ "/paths-info_post.json") = false ->
  exists out,
    RepositoryFiles env d repoType orgRepo commit filePath = inr out /\
    mkFileDescribe item 0 true "" ∈ out.
Proof.
  intros dir He Hd Hin Hpe.
  eexists. split; [exact (RepositoryFiles_listed env _ _ _ _ _ _ He Hd)|].
  rewrite sortNodes_perm. apply list_elem_of_omap. exists item.
  split; [done|].
  unfold describedEntry, describeEntry, analysisFile. fold dir.
  by rewrite Hpe.
Qed.

Lemma findSize_none (fileName : string) (infos : list common.PathsInfo)
    (size : Z) :
  Forall (fun info => common.Path info <> fileName) infos ->
  findSize fileName infos size = size.
Proof.
  induction 1 as [|info infos Hp _ IH]; simpl; [done|].
  by destruct (String.eqb_spec (common.Path info) fileName).
Qed.

(** X16. A file without its own element.  When the paths-info file of an
    entry reads and decodes but none of its elements has the path
    subPath/entryName (entryName when subPath is empty), the entry is still
    listed as a file with its link, and its size is 0. *)
Theorem listing_unmatched_size_zero (d : Disk) repoType orgRepo commit filePath
    (files : list string) item cc infos :
  let dir := pathsInfoDir env repoType orgRepo commit filePath in
  let pathInfoPath := dir +:+ "/" +:+ item +:+ "/paths-info_post.json" in
  let rel :=
    if decide (filePath = "") then item else filePath +:+ "/" +:+ item in
  disk_exists d dir = true ->
  disk_readdir d dir = Some files ->
  item ∈ files ->
  disk_exists d pathInfoPath = true ->
  disk_read d pathInfoPath = Some cc ->
  Unmarshal env (common.OriginContent cc) = Some infos ->
  Forall (fun info => common.Path info <> rel) infos ->
  exists out,
    RepositoryFiles env d repoType orgRepo commit filePath = inr out /\
    mkFileDescribe item 0 false
      ((PublicDomain (SysConfig env) +:+ "/" +:+ repoType +:+ "/" +:+ orgRepo
          +:+ "/resolve/" +:+ commit) +:+ "/" +:+ rel) ∈ out.
Proof.
  intros dir pathInfoPath rel He Hd Hin Hpe Hpr Hu Hnone.
  eexists. split; [exact (RepositoryFiles_listed env _ _ _ _ _ _ He Hd)|].
  rewrite sortNodes_perm. apply list_elem_of_omap. exists item.
  split; [done|].
  unfold describedEntry, describeEntry, analysisFile.
  fold dir pathInfoPath. rewrite Hpe, Hpr, Hu. simpl.
  rewrite relativePath_spec. fold rel.
  by rewrite (findSize_none rel infos 0 Hnone).
Qed.

(** X17. What a listed node looks like.  Every node of a listing is named
    after an enumerated entry.  A directory node has size 0 and no link; a
    file node has the link publicDomain/repoType/orgRepo/resolve/commit
    followed by "/" and the path of the entry relative to the repository,
    so the link is empty exactly for directories. *)
Theorem listing_node_invariant (d : Disk) repoType orgRepo commit filePath
    out node :
  RepositoryFiles env d repoType orgRepo commit filePath = inr out ->
  node ∈ out ->
  (exists files,
     disk_readdir d (pathsInfoDir env repoType orgRepo commit filePath)
       = Some files /\ Name node ∈ files) /\
  (IsDir node = true -> Size node = 0 /\ Link node = "") /\
  (IsDir node = false ->
     Link node
     = (PublicDomain (SysConfig env) +:+ "/" +:+ repoType +:+ "/"
          +:+ orgRepo +:+ "/resolve/" +:+ commit) +:+ "/"
         +:+ (if decide (filePath = "") then Name node
              else filePath +:+ "/" +:+ Name node)) /\
  (Link node = "" <-> IsDir node = true).
Proof.
  unfold RepositoryFiles.
  destruct (disk_exists _ _); simpl; [|done].
  destruct (disk_readdir _ _) as [files|]; [|done].
  intros [= <-]. rewrite sortNodes_perm, foldl_describeEntry. simpl.
  intros (item & Hin & Hdesc)%list_elem_of_omap.
  unfold describedEntry, describeEntry, analysisFile in Hdesc.
  rewrite relativePath_spec in Hdesc.
  assert (Hlink : forall a b : string, a +:+ "/" +:+ b <> "").
  { intros a b Heq. apply (f_equal String.length) in Heq.
    rewrite string_length_app in Heq. simpl in Heq. lia. }
  destruct (disk_exists d _); simpl in Hdesc.
  - destruct (disk_read d _) as [cc|]; [|done].
    destruct (Unmarshal env _) as [infos|]; [|done].
    simpl in Hdesc. injection Hdesc as <-. simpl.
    split; [by exists files|]. split; [done|]. split; [done|].
    split; [intros Heq; by apply Hlink in Heq | done].
  - injection Hdesc as <-. simpl.
    split; [by exists files|]. done.
Qed.

(** *** Whatever the library's sort does *)

Lemma describedEntry_name (d : Disk) repoType orgRepo commit filePath item
    node :
  describedEntry env d repoType orgRepo commit filePath item = Some node ->
  Name node = item.
Proof.
  unfold describedEntry, describeEntry.
  pose proof (analysisFile_fails env d
                (pathsInfoDir env repoType orgRepo commit filePath)
                filePath item) as Hf.
  destruct (analysisFile _ _ _ _ _) as [e | fd]; simpl; [done|].
  destruct Hf as [_ Hn]. intros [= <-]. by destruct (IsDir fd).
Qed.

Lemma StronglySorted_from_lookup {A} (R : relation A) (l : list A) :
  (forall i j a b, (i < j)%nat -> l !! i = Some a -> l !! j = Some b ->
                   R a b) ->
  StronglySorted R l.
Proof.
  induction l as [|x l IH]; intros Hl; constructor.
  - apply IH. intros i j a b Hij Hi Hj.
    apply (Hl (S i) (S j)); [lia | done | done].
  - apply Forall_forall. intros y Hy.
    apply list_elem_of_lookup in Hy as [j Hj].
    apply (Hl 0%nat (S j)); [lia | done | done].
Qed.

(** X18. The listing does not depend on how the library sorts.  Two
    assembled nodes that are tied under [less] have the same name, come
    from the same entry, and are equal.  So every arrangement of the
    assembled nodes in which no node is [less] than an earlier one, which
    is what any sort by [less] produces, stable or not and on a slice of
    any length, is the listing that [RepositoryFiles] returns. *)
Theorem listing_independent_of_sort (d : Disk) repoType orgRepo commit
    filePath (files : list string) (arranged : list FileDescribe) :
  let dir := pathsInfoDir env repoType orgRepo commit filePath in
  disk_exists d dir = true ->
  disk_readdir d dir = Some files ->
  arranged ≡ₚ foldl (describeEntry env d repoType orgRepo commit filePath)
                [] files ->
  (forall i j a b,
     (i < j)%nat -> arranged !! i = Some a -> arranged !! j = Some b ->
     less b a = false) ->
  RepositoryFiles env d repoType orgRepo commit filePath = inr arranged.
Proof.
  intros dir He Hd Hperm Hsorted.
  rewrite (RepositoryFiles_listed env _ _ _ _ _ _ He Hd). f_equal.
  rewrite foldl_describeEntry in Hperm. simpl in Hperm.
  symmetry. apply (StronglySorted_unique_strong node_le).
  - intros a b Ha Hb Hab Hba.
    rewrite Hperm in Ha. rewrite sortNodes_perm in Hb.
    apply list_elem_of_omap in Ha as (ia & _ & Ha).
    apply list_elem_of_omap in Hb as (ib & _ & Hb).
    apply node_le_spec in Hab as [Hd1 Hn1].
    apply node_le_spec in Hba as [Hd2 Hn2].
    assert (IsDir a = IsDir b) as Hdir
      by (destruct (IsDir a), (IsDir b); intuition congruence).
    assert (Name a = Name b) as Hname
      by (apply String.leb_antisym; auto).
    rewrite (describedEntry_name _ _ _ _ _ _ _ Ha),
            (describedEntry_name _ _ _ _ _ _ _ Hb) in Hname.
    subst ib. congruence.
  - by apply StronglySorted_from_lookup.
  - apply sortNodes_sorted.
  - by rewrite sortNodes_perm.
Qed.

(** X19. The order of enumeration does not matter.  Two disks that agree
    on which paths exist and on what they read, and whose listing roots
    enumerate the same pairwise distinct entries in different orders, give
    the same listing. *)
Theorem listing_enumeration_order_irrelevant (d d' : Disk) repoType orgRepo
    commit filePath (files files' : list string) :
  let dir := pathsInfoDir env repoType orgRepo commit filePath in
  (forall p, disk_exists d' p = disk_exists d p) ->
  (forall p, disk_read d' p = disk_read d p) ->
  disk_readdir d dir = Some files ->
  disk_readdir d' dir = Some files' ->
  files ≡ₚ files' ->
  NoDup files ->
  RepositoryFiles env d' repoType orgRepo commit filePath
  = RepositoryFiles env d repoType orgRepo commit filePath.
Proof.
  intros dir Hexists Hread Hd Hd' Hperm Hnd.
  unfold RepositoryFiles. fold dir. rewrite Hexists, Hd, Hd'.
  destruct (disk_exists d dir); simpl; [|done]. f_equal.
  rewrite !foldl_describeEntry. simpl.
  assert (Hsame : forall item,
            describedEntry env d' repoType orgRepo commit filePath item
            = describedEntry env d repoType orgRepo commit filePath item).
  { intros item. unfold describedEntry, describeEntry, analysisFile.
    by rewrite Hexists, Hread. }
  rewrite (list_omap_ext _
             (describedEntry env d repoType orgRepo commit filePath)
             files' files')
    by (apply Forall2_same_length_lookup_2; [done|];
        intros i x y Hx Hy; rewrite Hx in Hy; injection Hy as <-;
        by rewrite Hsame).
  apply sortNodes_canonical.
  - rewrite describedEntry_names. by apply NoDup_filter.
  - rewrite sortNodes_perm. by rewrite Hperm.
  - apply sortNodes_sorted.
Qed.

End ListingMore.

(** ** ForwardToNewSite *)

Lemma copyHeaders_lookup (upstream mine : gmap string (list string)) k :
  forward.copyHeaders upstream mine !! k
  = match upstream !! k with
    | Some v => Some v
    | None => mine !! k
    end.
Proof.
  unfold forward.copyHeaders.
  apply (map_fold_weak_ind
           (fun r m => r !! k = match m !! k with
                                | Some v => Some v
                                | None => mine !! k
                                end)).
  - by rewrite lookup_empty.
  - intros i x m r Hi IH. rewrite !lookup_insert.
    case_decide; [done | exact IH].
Qed.

Lemma take_prefix (n : nat) (s : string) :
  exists rest, s = forward.take n s +:+ rest.
Proof.
  revert s. induction n as [|n IH]; intros s.
  - by exists s.
  - destruct s as [|a r]; [by exists ""|].
    destruct (IH r) as [rest Hr]. exists rest. simpl.
    change (String a r = String a (forward.take n r +:+ rest)).
    by rewrite <- Hr.
Qed.

(** X20. The upstream answer is passed through.  Whatever the status of the
    upstream answer, [ForwardToNewSite] sets the status of the response to
    it and sets every upstream header in the response, replacing a value
    the response already had and keeping the headers the upstream does not
    name.  When the copy goes through, the response has received the whole
    upstream body and the call returns nil; when it fails, the response has
    received a beginning of the body, a proxy error response follows and is
    what the call returns.  Either way the upstream body is closed.  When
    the upstream cannot be reached the response is left alone apart from
    the proxy error, and nothing is closed. *)
Theorem forward_passes_upstream_through (copy : forward.CopyOutcome)
    (w : forward.Writer) :
  (forall resp,
     let call := forward.ForwardToNewSite (Some resp) copy w in
     forward.status call.2 = Some (forward.StatusCode resp) /\
     (forall k v, forward.Header resp !! k = Some v ->
                  forward.header call.2 !! k = Some v) /\
     (forall k, forward.Header resp !! k = None ->
                forward.header call.2 !! k = forward.header w !! k) /\
     forward.closed call.2 = true /\
     (copy = forward.Copied ->
        forward.written call.2 = Some (forward.Body resp) /\
        forward.error_sent call.2 = forward.error_sent w /\
        call.1 = None) /\
     (forall n, copy = forward.CopyFailed n ->
        (exists delivered rest,
           forward.written call.2 = Some delivered /\
           forward.Body resp = delivered +:+ rest /\
           (String.length delivered <= n)%nat) /\
        forward.error_sent call.2 = Some ProxyError /\
        call.1 = Some ProxyError)) /\
  (let call := forward.ForwardToNewSite None copy w in
   call.1 = Some ProxyError /\
   forward.error_sent call.2 = Some ProxyError /\
   forward.header call.2 = forward.header w /\
   forward.status call.2 = forward.status w /\
   forward.written call.2 = forward.written w /\
   forward.closed call.2 = forward.closed w).
Proof.
  split; [|done]. intros resp. cbv zeta. unfold forward.ForwardToNewSite.
  assert (Hlen : forall n s, (String.length (forward.take n s) <= n)%nat).
  { induction n as [|n IH]; intros [|a r]; simpl; try lia.
    specialize (IH r). lia. }
  destruct copy as [|m]; simpl; (split; [done|]);
    (split; [intros k v Hk; by rewrite copyHeaders_lookup, Hk|]);
    (split; [intros k Hk; by rewrite copyHeaders_lookup, Hk|]);
    (split; [done|]); split; try done.
  intros n [= <-].
  split; [|done].
  destruct (take_prefix m (forward.Body resp)) as [rest Hrest].
  exists (forward.take m (forward.Body resp)), rest. auto.
Qed.

(** ** The further theorems at work on the in-memory store *)

(** An unreadable entry is fetched again and replaced. *)
Lemma fetch_serves_and_saves_witness :
  let e := demo_env true (inr "sha1") (Some (demo_response 200)) true in
  let call :=
    run (MetaProxyCommon e demo_ctx "models" "org/repo" "main" "get")
        disk_unreadable in
  disk_read disk_unreadable sha1_meta_path = None /\
  disk_read (disk call.2) sha1_meta_path = Some (demo_content 200) /\
  exists tail,
    history call.2
      = [EvResolve "models" "org/repo" "main";
         EvRemoteRequestMeta "get" "models" "org/repo" "main" "Bearer t";
         EvWriteHeader 200 demo_headers; EvCopy "payload"] ++ tail.
Proof.
  intros e call. split; [reflexivity|].
  edestruct (fetch_serves_and_saves e demo_ctx "models" "org/repo" "main"
               "get" (mkState disk_unreadable []) "sha1" (demo_response 200))
    as (Hd & _ & Hread & tail & Hev & _);
    [reflexivity | reflexivity | right; reflexivity | reflexivity
    | left; reflexivity | reflexivity ..|].
  unfold call, run. rewrite Hd. split; [exact Hread|].
  exists tail. exact Hev.
Defined.

Lemma offline_serves_cache_witness :
  let e := demo_env false (inr "sha1") None true in
  let call :=
    run (MetaProxyCommon e demo_ctx "models" "org/repo" "main" "get")
        disk_cached in
  disk call.2 = disk_cached /\
  Forall (fun ev => is_origin_call ev = false) (history call.2).
Proof.
  intros e call.
  edestruct (offline_serves_cache e demo_ctx "models" "org/repo" "main" "get"
               (mkState disk_cached []) "sha1" (demo_content 200))
    as (Hd & Hno & _); [reflexivity ..|].
  split; [exact Hd | exact Hno].
Defined.

(** The client goes away while the body is copied. *)
Lemma copy_outcome_decides_result_witness :
  let e := demo_env true (inr "sha1") None false in
  let call :=
    run (MetaProxyCommon e demo_ctx "models" "org/repo" "main" "get")
        disk_cached in
  call.1 = Some ProxyError /\
  history call.2
    = [EvResolve "models" "org/repo" "main";
       EvWriteHeader 200 demo_headers; EvCopy "payload";
       EvErrorResponse ProxyError].
Proof.
  intros e call.
  edestruct (copy_outcome_decides_result e demo_ctx "models" "org/repo"
               "main" "get" (mkState disk_cached []) "sha1"
               (demo_content 200)) as (_ & Hfail);
    [reflexivity | reflexivity | left; split; reflexivity | reflexivity |].
  exact (Hfail eq_refl).
Defined.

(** A cache hit while the origin is up, and a fetch answered with 500: the
    disk stays as it was. *)
Lemma disk_untouched_without_accepted_answer_witness :
  let call e d :=
    run (MetaProxyCommon e demo_ctx "models" "org/repo" "main" "get") d in
  disk (call (demo_env true (inr "sha1") (Some (demo_response 200)) true)
             disk_cached).2 = disk_cached /\
  disk (call (demo_env true (inr "sha1") (Some (demo_response 500)) true)
             empty_disk).2 = empty_disk.
Proof.
  intros call. split.
  - destruct (disk_untouched_without_accepted_answer
                (demo_env true (inr "sha1") (Some (demo_response 200)) true)
                demo_ctx "models" "org/repo" "main" "get"
                (mkState disk_cached [])) as (_ & _ & Hhit & _).
    eapply (Hhit "sha1"); reflexivity.
  - destruct (disk_untouched_without_accepted_answer
                (demo_env true (inr "sha1") (Some (demo_response 500)) true)
                demo_ctx "models" "org/repo" "main" "get"
                (mkState empty_disk [])) as (_ & _ & _ & _ & Hrejected).
    apply (Hrejected (demo_response 500)); [reflexivity | discriminate ..].
Defined.

(** Fetched for [main], then asked for with the commit and with [main]
    resolving to itself; the origin has gone away in between. *)
Lemma fetch_then_hit_witness :
  let e :=
    mkEnv (demo_config true) "head" ["models"] demo_GetOrgRepo (fun hs => hs)
      Json.decode
      (fun _ _ _ commit =>
         if String.eqb commit "main" then inr "sha1" else inr commit)
      (fun h _ _ _ _ _ =>
         if bool_decide (length h <= 1)%nat then Some (demo_response 200)
         else None)
      (fun _ _ _ _ => None) (fun _ _ _ => None) (fun _ _ => true)
      (fun _ _ _ _ => None) in
  let first :=
    run (MetaProxyCommon e demo_ctx "models" "org/repo" "main" "get")
        empty_disk in
  let second :=
    MetaProxyCommon e demo_ctx "models" "org/repo" "sha1" "get" first.2 in
  Forall (fun ev => is_origin_call ev = false) (new_events first.2 second.2) /\
  exists tail,
    new_events first.2 second.2
      = [EvResolve "models" "org/repo" "sha1";
         EvWriteHeader 200 demo_headers; EvCopy "payload"] ++ tail.
Proof.
  intros e first second.
  edestruct (fetch_then_hit e demo_ctx demo_ctx "models" "org/repo" "main"
               "sha1" "get" (mkState empty_disk []) "sha1" "sha1"
               (demo_response 200))
    as (_ & Hno & tail & Hev & _);
    [reflexivity | reflexivity | left; reflexivity | reflexivity
    | left; reflexivity | reflexivity | reflexivity | reflexivity
    | reflexivity | reflexivity | left; reflexivity |].
  split; [exact Hno|]. exists tail. exact Hev.
Defined.

Lemma metaPath_inj_witness :
  let e := demo_env true (inr "sha1") None true in
  String.append "ma" "in" = "main".
Proof.
  intros e.
  exact (metaPath_inj e "models" "org/repo" (String.append "ma" "in") "main"
           "get" eq_refl).
Defined.

Lemma refs_request_validation_witness :
  let e := demo_env true (inr "sha1") (Some (demo_response 200)) true in
  run (RepoRefs e demo_ctx "model" "" "") empty_disk
    = (Some PageNotFound, mkState empty_disk [EvErrorResponse PageNotFound]) /\
  run (RepoRefs e demo_ctx "models" "" "") empty_disk
    = (Some RepoNotFound, mkState empty_disk [EvErrorResponse RepoNotFound]).
Proof.
  intros e.
  destruct (refs_request_validation e demo_ctx "model" "" ""
              (mkState empty_disk [])) as (Htype & _).
  destruct (refs_request_validation e demo_ctx "models" "" ""
              (mkState empty_disk [])) as (_ & Hnames).
  split.
  - apply Htype. intros Hin.
    repeat (apply elem_of_cons in Hin as [Hin | Hin]; [discriminate Hin|]).
    inversion Hin.
  - apply Hnames; [apply list_elem_of_here | reflexivity | reflexivity].
Defined.

(** Online with cached refs and the origin down: a proxy error, and the
    cached refs still there. *)
Lemma refs_origin_down_keeps_cache_witness :
  let e := demo_env true (inr "sha1") None true in
  let call := run (RepoRefs e demo_ctx "models" "org" "repo") disk_refs_cached in
  call.1 = Some ProxyError /\
  history call.2
    = [EvRepoRefs "models" "org/repo" "Bearer t";
       EvErrorResponse ProxyError] /\
  disk_read (disk call.2) refs_path = Some old_refs.
Proof.
  intros e call.
  edestruct (refs_origin_down_keeps_cache e demo_ctx "models" "org" "repo"
               (mkState disk_refs_cached []))
    as (Hres & Hev & _ & Hread);
    [simpl; apply list_elem_of_here | by intros [? ?] | reflexivity
    | left; reflexivity | reflexivity |].
  split; [exact Hres|]. split; [exact Hev | exact Hread].
Defined.

Lemma refs_disk_failures_witness :
  let e := demo_env true (inr "sha1") (Some (demo_response 200)) true in
  let call d := run (RepoRefs e demo_ctx "models" "org" "repo") d in
  ((call disk_refs_nodir).1 = Some ProxyError /\
   history (call disk_refs_nodir).2 = [EvErrorResponse ProxyError]) /\
  ((call disk_refs_readonly).1 = Some ProxyError /\
   history (call disk_refs_readonly).2
     = [EvRepoRefs "models" "org/repo" "Bearer t";
        EvErrorResponse ProxyError]).
Proof.
  intros e call. split.
  - edestruct (refs_disk_failures e demo_ctx "models" "org" "repo"
                 (mkState disk_refs_nodir [])) as (Hnodir & _);
      [simpl; apply list_elem_of_here | by intros [? ?] |].
    destruct (Hnodir disk_refs_nodir eq_refl) as (Hres & _ & Hev).
    split; [exact Hres | exact Hev].
  - edestruct (refs_disk_failures e demo_ctx "models" "org" "repo"
                 (mkState disk_refs_readonly [])) as (_ & Hreadonly);
      [simpl; apply list_elem_of_here | by intros [? ?] |].
    edestruct (Hreadonly disk_refs_readonly (demo_response 200))
      as (Hres & _ & Hev);
      [reflexivity | left; reflexivity | reflexivity | reflexivity |].
    split; [exact Hres | exact Hev].
Defined.

Lemma refs_online_then_offline_witness :
  let online := demo_env true (inr "sha1") (Some (demo_response 200)) true in
  let offline := demo_env false (inr "sha1") None true in
  let first := run (RepoRefs online demo_ctx "models" "org" "repo") empty_disk in
  let second := RepoRefs offline demo_ctx "models" "org" "repo" first.2 in
  new_events first.2 second.2
    = [EvResponseStream "org/repo" demo_headers ["payload"]].
Proof.
  intros online offline first second.
  edestruct (refs_online_then_offline online offline demo_ctx demo_ctx
               "models" "org" "repo" (mkState empty_disk [])
               (demo_response 200)) as (_ & Hsecond & _);
    [reflexivity | reflexivity | reflexivity | reflexivity
    | simpl; apply list_elem_of_here | simpl; apply list_elem_of_here
    | by intros [? ?] | reflexivity | reflexivity | reflexivity
    | reflexivity |].
  exact Hsecond.
Defined.

Lemma listing_fails_only_at_root_witness :
  RepositoryFiles listing_env listing_disk "models" "org/repo" "sha2" ""
    = inl FileNotExists /\
  ~ (exists e,
       RepositoryFiles listing_env listing_disk "models" "org/repo" "sha1"
         "sub" = inl e).
Proof.
  split.
  - apply (listing_fails_only_at_root listing_env listing_disk "models"
             "org/repo" "sha2" ""). reflexivity.
  - intros Herr.
    apply (listing_fails_only_at_root listing_env listing_disk "models"
             "org/repo" "sha1" "sub") in Herr.
    destruct Herr as [Herr | Herr]; discriminate Herr.
Defined.

Lemma listing_directory_entry_witness :
  exists out,
    RepositoryFiles listing_env listing_disk "models" "org/repo" "sha1" ""
      = inr out /\
    mkFileDescribe "a_dir" 0 true "" ∈ out.
Proof.
  apply (listing_directory_entry listing_env listing_disk "models" "org/repo"
           "sha1" "" ["b.txt"; "a_dir"; "a.txt"] "a_dir");
    [reflexivity | reflexivity
    | apply list_elem_of_further, list_elem_of_here | reflexivity].
Defined.

(** The paths-info file names [a.txt] without its directory [sub]. *)
Lemma listing_unmatched_size_zero_witness :
  exists out,
    RepositoryFiles listing_env stray_disk "models" "org/repo" "sha1" "sub"
      = inr out /\
    mkFileDescribe "a.txt" 0 false
      "http://mirror/models/org/repo/resolve/sha1/sub/a.txt" ∈ out.
Proof.
  apply (listing_unmatched_size_zero listing_env stray_disk "models"
           "org/repo" "sha1" "sub" ["a.txt"] "a.txt"
           (common.mkCacheContent 200 ∅
              ("[" +:+ Json.entry "a.txt" "42" +:+ "]"))
           [common.mkPathsInfo "a.txt" 42]);
    [reflexivity | reflexivity | apply list_elem_of_here
    | reflexivity | reflexivity | reflexivity |].
  constructor; [discriminate | constructor].
Defined.

Lemma listing_node_invariant_witness :
  let node :=
    mkFileDescribe "c.txt" 5 false
      "http://mirror/models/org/repo/resolve/sha1/sub/c.txt" in
  (exists files,
     disk_readdir listing_disk
       (pathsInfoDir listing_env "models" "org/repo" "sha1" "sub")
       = Some files /\ Name node ∈ files) /\
  (Link node = "" <-> IsDir node = true).
Proof.
  intros node.
  edestruct (listing_node_invariant listing_env listing_disk "models"
               "org/repo" "sha1" "sub" _ node listing_sub_run)
    as (Hfrom & _ & _ & Hlink).
  - apply list_elem_of_further, list_elem_of_here.
  - split; [exact Hfrom | exact Hlink].
Defined.

(** An enumeration that names [a.txt] twice: the two tied nodes are equal,
    and the one arrangement in listing order is the result. *)
Lemma listing_independent_of_sort_witness :
  let a_dir := mkFileDescribe "a_dir" 0 true "" in
  let a_txt :=
    mkFileDescribe "a.txt" 7 false
      "http://mirror/models/org/repo/resolve/sha1/a.txt" in
  RepositoryFiles listing_env listing_disk_repeated "models" "org/repo"
    "sha1" "" = inr [a_dir; a_txt; a_txt].
Proof.
  intros a_dir a_txt.
  apply (listing_independent_of_sort listing_env listing_disk_repeated
           "models" "org/repo" "sha1" "" ["a.txt"; "a_dir"; "a.txt"]).
  - reflexivity.
  - reflexivity.
  - assert (foldl (describeEntry listing_env listing_disk_repeated "models"
                     "org/repo" "sha1" "") [] ["a.txt"; "a_dir"; "a.txt"]
            = [a_txt; a_dir; a_txt]) as -> by (vm_compute; reflexivity).
    apply Permutation_swap.
  - intros [|[|[|i]]] [|[|[|j]]] a b Hij Hi Hj; try lia;
      simpl in Hi, Hj; try discriminate;
      injection Hi as <-; injection Hj as <-; reflexivity.
Defined.

Lemma listing_enumeration_order_irrelevant_witness :
  RepositoryFiles listing_env listing_disk_reordered "models" "org/repo"
    "sha1" ""
  = RepositoryFiles listing_env listing_disk "models" "org/repo" "sha1" "".
Proof.
  apply (listing_enumeration_order_irrelevant listing_env listing_disk
           listing_disk_reordered "models" "org/repo" "sha1" ""
           ["b.txt"; "a_dir"; "a.txt"] ["a.txt"; "b.txt"; "a_dir"]).
  - intros p. unfold disk_exists, MemDisk_store, mem_exists.
    unfold listing_disk_reordered. cbn [files dirs].
    destruct (decide (p = listing_root)) as [-> | Hne].
    + reflexivity.
    + by rewrite lookup_insert_ne.
  - reflexivity.
  - reflexivity.
  - reflexivity.
  - apply Permutation_sym.
    exact (Permutation_cons_append ["b.txt"; "a_dir"] "a.txt").
  - repeat (apply NoDup_cons; split;
            [intros Hin;
             repeat (apply elem_of_cons in Hin as [Hin | Hin];
                     [discriminate Hin|]);
             inversion Hin|]).
    apply NoDup_nil_2.
Defined.

(** The client goes away after three bytes of a 502 answer. *)
Lemma forward_passes_upstream_through_witness :
  let call := forward.ForwardToNewSite (Some upstream_answer)
                (forward.CopyFailed 3) fresh_writer in
  forward.status call.2 = Some 502 /\
  forward.header call.2 !! "Vary" = Some ["Accept"; "Cookie"] /\
  forward.header call.2 !! "Server" = Some ["dingo"] /\
  forward.closed call.2 = true /\
  (exists delivered rest,
     forward.written call.2 = Some delivered /\
     "bad gateway" = delivered +:+ rest /\
     (String.length delivered <= 3)%nat) /\
  call.1 = Some ProxyError.
Proof.
  intros call.
  destruct (forward_passes_upstream_through (forward.CopyFailed 3)
              fresh_writer) as (Hpass & _).
  destruct (Hpass upstream_answer)
    as (Hstatus & Hset & Hkept & Hclosed & _ & Hfail).
  destruct (Hfail 3%nat eq_refl) as (Hdelivered & _ & Hres).
  split; [exact Hstatus|].
  split; [apply Hset; reflexivity|].
  split; [rewrite Hkept; reflexivity|].
  split; [exact Hclosed|].
  split; [exact Hdelivered | exact Hres].
Defined.
